(** * Query layer of the platform QoS library (lib/utils.c)

    A shallow embedding of the topology and capability queries of
    [lib/utils.c], and the properties of them that the specification states.

    Conventions of the embedding:
    - a C [unsigned] is a [Z] in [0, 2^32); [x++] is [uinc x], with the
      wrap-around written out;
    - a pointer argument is a [ptr A]: [NULL], or [Ptr v] with [v] the current
      contents of the pointee; a function returns the new contents of the
      objects it may write next to its return code;
    - an array is a list; reading or writing past its end is undefined
      behaviour in C and makes the embedded function answer [None], as does a
      loop that runs out of its iteration budget. Every theorem about a
      result therefore proves that the function answers [Some _];
    - [ASSERT] is compiled out of release builds and repeats the run-time
      check that follows it, so it is not modelled. *)

From stdpp Require Import base numbers option list gmap.

Local Open Scope Z_scope.

(** ** Machine integers, pointers and return codes *)

Definition UINT_MAX : Z := 2 ^ 32 - 1.

Definition uinc (x : Z) : Z := (x + 1) mod 2 ^ 32.

Inductive ptr (A : Type) : Type :=
| NULL : ptr A
| Ptr (pointee : A) : ptr A.

Arguments NULL {A}.
Arguments Ptr {A} pointee.

(** Modelled from the spec: the return codes are macros of [pqos.h], which is
    not part of the sources at hand. Only their being pairwise distinct
    matters here. In the words of the specification (sections 6 and 7)
    [PQOS_RETVAL_PARAM] is InvalidArgument, [PQOS_RETVAL_RESOURCE] is
    CapabilityAbsent and [PQOS_RETVAL_ERROR] is the generic error code that
    reports both NotFound and Overflow. *)
Inductive retval : Type :=
| PQOS_RETVAL_OK
| PQOS_RETVAL_ERROR
| PQOS_RETVAL_PARAM
| PQOS_RETVAL_RESOURCE.

#[global] Instance retval_eq_dec : EqDecision retval.
Proof. solve_decision. Defined.

(** ** CPU topology *)

(** Modelled from the spec: [struct pqos_coreinfo] and [struct pqos_cpuinfo]
    are declared in [pqos.h]; the fields are the ones [utils.c] reads
    (CoreRecord and TopologySnapshot of section 3). *)
Record pqos_coreinfo : Type := {
  lcore : Z;
  socket : Z;
  l3_id : Z;
  l2_id : Z
}.

Record pqos_cpuinfo : Type := {
  num_cores : Z;
  cores : list pqos_coreinfo
}.

(** A snapshot is well formed when [num_cores] is the length of the array of
    cores and fits an [unsigned]. *)
Definition cpu_wf (cpu : pqos_cpuinfo) : Prop :=
  num_cores cpu = Z.of_nat (length (cores cpu)) ∧ num_cores cpu <= UINT_MAX.

Definition mk_cpu (l : list pqos_coreinfo) : pqos_cpuinfo :=
  {| num_cores := Z.of_nat (length l); cores := l |}.

Definition mk_core (id s l3 l2 : Z) : pqos_coreinfo :=
  {| lcore := id; socket := s; l3_id := l3; l2_id := l2 |}.

Definition TOPO_OBJ_SOCKET : Z := 0.
Definition TOPO_OBJ_L2_CLUSTER : Z := 2.
Definition TOPO_OBJ_L3_CLUSTER : Z := 3.

Definition valid_topo_obj (type : Z) : Prop :=
  type = TOPO_OBJ_SOCKET ∨ type = TOPO_OBJ_L2_CLUSTER ∨
  type = TOPO_OBJ_L3_CLUSTER.

(** The value of the grouping key [type] on a core. *)
Definition topo_key (type : Z) (c : pqos_coreinfo) : Z :=
  if type =? TOPO_OBJ_SOCKET then socket c
  else if type =? TOPO_OBJ_L2_CLUSTER then l2_id c
  else l3_id c.

Module Counter.

(** The three [if (...) break;] of the inner loop of
    [__get_num_of_topology_objs]. *)
Definition already_counted (type : Z) (ci cj : pqos_coreinfo) : bool :=
  if (type =? TOPO_OBJ_SOCKET) && (socket ci =? socket cj) then true
  else if (type =? TOPO_OBJ_L2_CLUSTER) && (l2_id ci =? l2_id cj) then true
  else if (type =? TOPO_OBJ_L3_CLUSTER) && (l3_id ci =? l3_id cj) then true
  else false.

(** [for (j = 0; j < i; j++) { ... break; }], started at [j]; the answer is
    the value of [j] when the loop is left. *)
Fixpoint scan_earlier (fuel : nat) (cpu : pqos_cpuinfo) (type i j : Z)
  : option Z :=
  match fuel with
  | O => None
  | S fuel' =>
      if j <? i then
        ci ← cores cpu !! Z.to_nat i;
        cj ← cores cpu !! Z.to_nat j;
        if already_counted type ci cj then Some j
        else scan_earlier fuel' cpu type i (uinc j)
      else Some j
  end.

(** [for (i = 1, count = 1; i < cpu->num_cores; i++) { ... }], started at
    [i] with [count]; the answer is the final [count]. *)
Fixpoint count_loop (fuel : nat) (cpu : pqos_cpuinfo) (type i count : Z)
  : option Z :=
  match fuel with
  | O => None
  | S fuel' =>
      if i <? num_cores cpu then
        j ← scan_earlier (S (Z.to_nat i)) cpu type i 0;
        count_loop fuel' cpu type (uinc i)
          (if i <=? j then uinc count else count)
      else Some count
  end.

Definition __get_num_of_topology_objs (cpu : ptr pqos_cpuinfo) (type : Z)
  : option Z :=
  match cpu with
  | NULL => Some 0
  | Ptr c =>
      if negb (type =? TOPO_OBJ_SOCKET) && negb (type =? TOPO_OBJ_L2_CLUSTER)
         && negb (type =? TOPO_OBJ_L3_CLUSTER) then Some 0
      else if num_cores c =? 0 then Some 0
      else count_loop (Z.to_nat (num_cores c)) c type 1 1
  end.

(** [pqos_cpu_get_num_sockets]: the return code and the contents of
    [*count] after the call. *)
Definition pqos_cpu_get_num_sockets (cpu : ptr pqos_cpuinfo) (count : ptr Z)
  : option (retval * ptr Z) :=
  match cpu, count with
  | Ptr _, Ptr _ =>
      n ← __get_num_of_topology_objs cpu TOPO_OBJ_SOCKET;
      if n =? 0 then Some (PQOS_RETVAL_ERROR, Ptr n)
      else Some (PQOS_RETVAL_OK, Ptr n)
  | _, _ => Some (PQOS_RETVAL_PARAM, count)
  end.

(** The number of distinct values of the grouping key over a list of
    cores. *)
Definition distinct_keys (type : Z) (l : list pqos_coreinfo) : Z :=
  Z.of_nat (size (list_to_set (C := gset Z) (topo_key type <$> l))).


End Counter.

(** [p[i] = v] on an array of [length buf] elements. *)
Definition store (buf : list Z) (i v : Z) : option (list Z) :=
  if decide (Z.to_nat i < length buf)%nat then Some (<[Z.to_nat i := v]> buf)
  else None.

(** How a loop was left: by its condition, or by a [return] in its body. *)
Inductive loop_exit : Type :=
| Fallthrough
| Return (r : retval).

Module Sockets.

(** [for (j = 0; j < scount && scount > 0; j++)
       if (cpu->cores[i].socket == sockets[j]) break;]
    with [s] the socket of core [i]; the answer is the final [j]. *)
Fixpoint find_socket (fuel : nat) (sockets : list Z) (s scount j : Z)
  : option Z :=
  match fuel with
  | O => None
  | S fuel' =>
      if (j <? scount) && (0 <? scount) then
        sj ← sockets !! Z.to_nat j;
        if s =? sj then Some j
        else find_socket fuel' sockets s scount (uinc j)
      else Some j
  end.

(** [for (i = 1; i < cpu->num_cores; i++) { ... }] of
    [pqos_cpu_get_sockets], started at [i]; the answer is how the loop was
    left, [scount] and the contents of [sockets]. *)
Fixpoint sockets_loop (fuel : nat) (cpu : pqos_cpuinfo) (max_count : Z)
    (i scount : Z) (sockets : list Z) : option (loop_exit * Z * list Z) :=
  match fuel with
  | O => None
  | S fuel' =>
      if i <? num_cores cpu then
        ci ← cores cpu !! Z.to_nat i;
        j ← find_socket (S (Z.to_nat scount)) sockets (socket ci) scount 0;
        if (scount <=? j) || (scount =? 0) then
          if max_count <=? scount then
            Some (Return PQOS_RETVAL_ERROR, scount, sockets)
          else
            sockets' ← store sockets scount (socket ci);
            sockets_loop fuel' cpu max_count (uinc i) (uinc scount) sockets'
        else sockets_loop fuel' cpu max_count (uinc i) scount sockets
      else Some (Fallthrough, scount, sockets)
  end.

(** [pqos_cpu_get_sockets]: the return code and the contents of [*count]
    and of the array [sockets] after the call. *)
Definition pqos_cpu_get_sockets (cpu : ptr pqos_cpuinfo) (max_count : Z)
    (count : ptr Z) (sockets : ptr (list Z))
  : option (retval * ptr Z * ptr (list Z)) :=
  match cpu, count, sockets with
  | Ptr c, Ptr _, Ptr buf =>
      if max_count =? 0 then Some (PQOS_RETVAL_PARAM, count, sockets)
      else
        '(exit, scount, buf') ←
          sockets_loop (S (Z.to_nat (num_cores c))) c max_count 1 0 buf;
        match exit with
        | Return r => Some (r, count, Ptr buf')
        | Fallthrough => Some (PQOS_RETVAL_OK, Ptr scount, Ptr buf')
        end
  | _, _, _ => Some (PQOS_RETVAL_PARAM, count, sockets)
  end.

(** [for (i = 0; i < cpu->num_cores; i++) if (...) { ... }] of
    [pqos_cpu_get_cores], started at [i]; the answer is how the loop was
    left, [cnt], and the contents of [*count] and of the array [cores]. *)
Fixpoint cores_loop (fuel : nat) (cpu : pqos_cpuinfo) (socket_id max_count : Z)
    (i cnt : Z) (count : Z) (cores_out : list Z)
  : option (loop_exit * Z * Z * list Z) :=
  match fuel with
  | O => None
  | S fuel' =>
      if i <? num_cores cpu then
        ci ← cores cpu !! Z.to_nat i;
        if socket ci =? socket_id then
          if max_count =? 1 then
            cores_out' ← store cores_out 0 (lcore ci);
            Some (Return PQOS_RETVAL_OK, cnt, 1, cores_out')
          else if max_count <=? cnt then
            Some (Return PQOS_RETVAL_ERROR, cnt, count, cores_out)
          else
            cores_out' ← store cores_out cnt (lcore ci);
            cores_loop fuel' cpu socket_id max_count (uinc i) (uinc cnt)
              count cores_out'
        else cores_loop fuel' cpu socket_id max_count (uinc i) cnt count
               cores_out
      else Some (Fallthrough, cnt, count, cores_out)
  end.

Definition pqos_cpu_get_cores (cpu : ptr pqos_cpuinfo) (socket_id max_count : Z)
    (count : ptr Z) (cores_out : ptr (list Z))
  : option (retval * ptr Z * ptr (list Z)) :=
  match cpu, count, cores_out with
  | Ptr c, Ptr old, Ptr buf =>
      if max_count =? 0 then Some (PQOS_RETVAL_PARAM, count, cores_out)
      else
        '(exit, cnt, count', buf') ←
          cores_loop (S (Z.to_nat (num_cores c))) c socket_id max_count 0 0
            old buf;
        match exit with
        | Return r => Some (r, Ptr count', Ptr buf')
        | Fallthrough =>
            if cnt =? 0 then Some (PQOS_RETVAL_ERROR, Ptr count', Ptr buf')
            else Some (PQOS_RETVAL_OK, Ptr cnt, Ptr buf')
        end
  | _, _, _ => Some (PQOS_RETVAL_PARAM, count, cores_out)
  end.

(** The socket ids of a list of cores in first-seen order, as the
    specification words it: going through the cores in order, an id joins
    the end of the result unless it is in the result already. *)
Fixpoint first_seen_from (seen : list Z) (l : list Z) : list Z :=
  match l with
  | [] => seen
  | s :: l' =>
      if decide (s ∈ seen) then first_seen_from seen l'
      else first_seen_from (seen ++ [s]) l'
  end.

Definition first_seen (l : list Z) : list Z := first_seen_from [] l.

(** The logical core ids of the cores of socket [socket_id], in the order of
    the snapshot. *)
Definition cores_of_socket (socket_id : Z) (l : list pqos_coreinfo) : list Z :=
  lcore <$> filter (λ c, socket c = socket_id) l.

End Sockets.

Module Lister.

(** The condition of the [if] in the loop of
    [__get_cores_per_topology_obj]. *)
Definition in_topology_obj (type id : Z) (c : pqos_coreinfo) : bool :=
  (type =? TOPO_OBJ_L3_CLUSTER) && (id =? l3_id c)
  || (type =? TOPO_OBJ_L2_CLUSTER) && (id =? l2_id c)
  || (type =? TOPO_OBJ_SOCKET) && (id =? socket c).

(** [for (i = 0; i < cpu->num_cores; i++) if (...) core_list[num++] = ...;]
    started at [i]; the answer is [num] and the contents of [core_list]. *)
Fixpoint collect_loop (fuel : nat) (cpu : pqos_cpuinfo) (type id : Z)
    (i num : Z) (core_list : list Z) : option (Z * list Z) :=
  match fuel with
  | O => None
  | S fuel' =>
      if i <? num_cores cpu then
        ci ← cores cpu !! Z.to_nat i;
        if in_topology_obj type id ci then
          core_list' ← store core_list num (lcore ci);
          collect_loop fuel' cpu type id (uinc i) (uinc num) core_list'
        else collect_loop fuel' cpu type id (uinc i) num core_list
      else Some (num, core_list)
  end.

(** The allocator: [malloc n] is the answer of [malloc] to a request for [n]
    elements of type [unsigned], [NULL] or a block with contents of its
    own. *)
Definition allocator : Type := Z → ptr (list Z).

Definition allocator_sound (malloc : allocator) : Prop :=
  ∀ n block, 0 <= n → malloc n = Ptr block → Z.of_nat (length block) = n.

(** [__get_cores_per_topology_obj]: the pointer returned ([NULL], or the
    block with its contents) and the contents of [*count] after the call. *)
Definition __get_cores_per_topology_obj (malloc : allocator)
    (cpu : ptr pqos_cpuinfo) (type id : Z) (count : ptr Z)
  : option (ptr (list Z) * ptr Z) :=
  match cpu, count with
  | Ptr c, Ptr _ =>
      match malloc (num_cores c) with
      | NULL => Some (NULL, count)
      | Ptr block =>
          '(num, core_list) ←
            collect_loop (S (Z.to_nat (num_cores c))) c type id 0 0 block;
          if num =? 0 then Some (NULL, count)
          else Some (Ptr core_list, Ptr num)
      end
  | _, _ => Some (NULL, count)
  end.

Definition pqos_cpu_get_cores_l3id (malloc : allocator)
    (cpu : ptr pqos_cpuinfo) (l3 : Z) (count : ptr Z)
  : option (ptr (list Z) * ptr Z) :=
  __get_cores_per_topology_obj malloc cpu TOPO_OBJ_L3_CLUSTER l3 count.

(** The logical core ids of the cores whose grouping key [type] has the
    value [id], in the order of the snapshot. *)
Definition cores_of_obj (type id : Z) (l : list pqos_coreinfo) : list Z :=
  lcore <$> filter (λ c, topo_key type c = id) l.

(** An allocator that answers every request with a zeroed block. *)
Definition calloc_like : allocator :=
  λ n, Ptr (replicate (Z.to_nat n) 0).

End Lister.

(** ** Capabilities *)

(** The element at position [i] is the first one of [l] that satisfies
    [P]. *)
Definition first_at {A : Type} (P : A → Prop) (l : list A) (i : nat) (x : A)
  : Prop :=
  l !! i = Some x ∧ P x ∧ ∀ (j : nat) (y : A), l !! j = Some y → (j < i)%nat → ¬ P y.


Module Caps.

(** Modelled from the spec: [enum pqos_cap_type] is declared in [pqos.h];
    its tags are Monitoring, L3CacheAllocation and L2CacheAllocation
    (section 3), numbered from 0 in that order and followed by the count of
    tags, as the test [type >= PQOS_CAP_TYPE_NUMOF] of [pqos_cap_get_type]
    takes for granted. *)
Definition PQOS_CAP_TYPE_MON : Z := 0.
Definition PQOS_CAP_TYPE_L3CA : Z := 1.
Definition PQOS_CAP_TYPE_L2CA : Z := 2.
Definition PQOS_CAP_TYPE_NUMOF : Z := 3.

(** Modelled from the spec: the capability records of [pqos.h] (section 3):
    an event descriptor with its tag and metadata, the monitoring payload
    with its events, the cache-allocation payload, and the capability as a
    tagged variant. *)
Record pqos_monitor : Type := {
  event_type : Z;
  max_rmid : Z;
  scale_factor : Z
}.

Record pqos_cap_mon : Type := {
  num_events : Z;
  events : list pqos_monitor
}.

Record pqos_cap_ca : Type := {
  num_classes : Z;
  cdp : Z;
  cdp_on : Z
}.

Inductive pqos_capability : Type :=
| Cap_mon (mon : pqos_cap_mon)
| Cap_l3ca (l3ca : pqos_cap_ca)
| Cap_l2ca (l2ca : pqos_cap_ca).

(** The field [type] of a capability. *)
Definition cap_type (c : pqos_capability) : Z :=
  match c with
  | Cap_mon _ => PQOS_CAP_TYPE_MON
  | Cap_l3ca _ => PQOS_CAP_TYPE_L3CA
  | Cap_l2ca _ => PQOS_CAP_TYPE_L2CA
  end.

(** The member [u.mon] of a capability; reading it from a capability that
    holds another member is not defined. *)
Definition u_mon (c : pqos_capability) : option pqos_cap_mon :=
  match c with
  | Cap_mon m => Some m
  | _ => None
  end.

Record pqos_cap : Type := {
  num_cap : Z;
  capabilities : list pqos_capability
}.

Definition cap_wf (cap : pqos_cap) : Prop :=
  num_cap cap = Z.of_nat (length (capabilities cap)) ∧ num_cap cap <= UINT_MAX.

Definition mon_wf (mon : pqos_cap_mon) : Prop :=
  num_events mon = Z.of_nat (length (events mon)) ∧ num_events mon <= UINT_MAX.

(** Every monitoring payload of the snapshot is well formed. *)
Definition cap_mon_wf (cap : pqos_cap) : Prop :=
  ∀ m, Cap_mon m ∈ capabilities cap → mon_wf m.

(** A reference into the snapshot: [CapRef i] is [&cap->capabilities[i]],
    and [EventRef i k] is [&mon->events[k]] for the monitoring payload [mon]
    of [cap->capabilities[i]]. *)
Inductive cap_ref : Type := CapRef (i : Z).
Inductive event_ref : Type := EventRef (i k : Z).

(** [for (i = 0; i < cap->num_cap; i++) { ... }] of [pqos_cap_get_type],
    started at [i]; the answer is [ret] and the contents of [*cap_item]. *)
Fixpoint type_loop (fuel : nat) (cap : pqos_cap) (type : Z) (i : Z)
    (ret : retval) (item : ptr cap_ref) : option (retval * ptr cap_ref) :=
  match fuel with
  | O => None
  | S fuel' =>
      if i <? num_cap cap then
        ci ← capabilities cap !! Z.to_nat i;
        if negb (cap_type ci =? type) then
          type_loop fuel' cap type (uinc i) ret item
        else Some (PQOS_RETVAL_OK, Ptr (CapRef i))
      else Some (ret, item)
  end.

(** [pqos_cap_get_type]; [type] is a value of the unsigned enumeration
    [enum pqos_cap_type], so [0 <= type]. *)
Definition pqos_cap_get_type (cap : ptr pqos_cap) (type : Z)
    (cap_item : ptr (ptr cap_ref)) : option (retval * ptr (ptr cap_ref)) :=
  match cap, cap_item with
  | Ptr c, Ptr item =>
      if PQOS_CAP_TYPE_NUMOF <=? type then Some (PQOS_RETVAL_PARAM, cap_item)
      else
        '(ret, item') ←
          type_loop (S (Z.to_nat (num_cap c))) c type 0 PQOS_RETVAL_RESOURCE
            item;
        Some (ret, Ptr item')
  | _, _ => Some (PQOS_RETVAL_PARAM, cap_item)
  end.

(** [for (i = 0; i < mon->num_events; i++) { ... }] of [pqos_cap_get_event],
    started at [i], for the monitoring payload of capability [k]. *)
Fixpoint event_loop (fuel : nat) (mon : pqos_cap_mon) (k event : Z) (i : Z)
    (ret : retval) (p : ptr event_ref) : option (retval * ptr event_ref) :=
  match fuel with
  | O => None
  | S fuel' =>
      if i <? num_events mon then
        ei ← events mon !! Z.to_nat i;
        if event_type ei =? event then
          Some (PQOS_RETVAL_OK, Ptr (EventRef k i))
        else event_loop fuel' mon k event (uinc i) ret p
      else Some (ret, p)
  end.

Definition pqos_cap_get_event (cap : ptr pqos_cap) (event : Z)
    (p_mon : ptr (ptr event_ref)) : option (retval * ptr (ptr event_ref)) :=
  match cap, p_mon with
  | Ptr c, Ptr p =>
      '(ret, cap_item) ← pqos_cap_get_type cap PQOS_CAP_TYPE_MON (Ptr NULL);
      if decide (ret ≠ PQOS_RETVAL_OK) then Some (ret, p_mon)
      else
        match cap_item with
        | Ptr (Ptr (CapRef k)) =>
            item ← capabilities c !! Z.to_nat k;
            mon ← u_mon item;
            '(ret', p') ←
              event_loop (S (Z.to_nat (num_events mon))) mon k event 0
                PQOS_RETVAL_ERROR p;
            Some (ret', Ptr p')
        | _ => None
        end
  | _, _ => Some (PQOS_RETVAL_PARAM, p_mon)
  end.

(** What a reference stands for in a snapshot. *)
Definition deref_cap (cap : pqos_cap) (r : cap_ref) : option pqos_capability :=
  match r with CapRef i => capabilities cap !! Z.to_nat i end.

Definition deref_event (cap : pqos_cap) (r : event_ref) : option pqos_monitor :=
  match r with
  | EventRef i k =>
      c ← capabilities cap !! Z.to_nat i;
      mon ← u_mon c;
      events mon !! Z.to_nat k
  end.

End Caps.

(** ** Point queries on cores *)

Module CoreLookup.

(** [for (i = 0; i < cpu->num_cores; i++) if (...) return PQOS_RETVAL_OK;]
    of [pqos_cpu_check_core], started at [i]; the answer is the code
    returned, by the loop or after it. *)
Fixpoint check_loop (fuel : nat) (cpu : pqos_cpuinfo) (lcore_id i : Z)
  : option retval :=
  match fuel with
  | O => None
  | S fuel' =>
      if i <? num_cores cpu then
        ci ← cores cpu !! Z.to_nat i;
        if lcore ci =? lcore_id then Some PQOS_RETVAL_OK
        else check_loop fuel' cpu lcore_id (uinc i)
      else Some PQOS_RETVAL_ERROR
  end.

Definition pqos_cpu_check_core (cpu : ptr pqos_cpuinfo) (lcore_id : Z)
  : option retval :=
  match cpu with
  | NULL => Some PQOS_RETVAL_PARAM
  | Ptr c => check_loop (S (Z.to_nat (num_cores c))) c lcore_id 0
  end.

(** The loop of [pqos_cpu_get_socketid], started at [i]; the answer is the
    code returned and the contents of [*socket]. *)
Fixpoint socketid_loop (fuel : nat) (cpu : pqos_cpuinfo) (lcore_id i : Z)
    (socket_out : Z) : option (retval * Z) :=
  match fuel with
  | O => None
  | S fuel' =>
      if i <? num_cores cpu then
        ci ← cores cpu !! Z.to_nat i;
        if lcore ci =? lcore_id then Some (PQOS_RETVAL_OK, socket ci)
        else socketid_loop fuel' cpu lcore_id (uinc i) socket_out
      else Some (PQOS_RETVAL_ERROR, socket_out)
  end.

Definition pqos_cpu_get_socketid (cpu : ptr pqos_cpuinfo) (lcore_id : Z)
    (socket_out : ptr Z) : option (retval * ptr Z) :=
  match cpu, socket_out with
  | Ptr c, Ptr old =>
      '(ret, v) ← socketid_loop (S (Z.to_nat (num_cores c))) c lcore_id 0 old;
      Some (ret, Ptr v)
  | _, _ => Some (PQOS_RETVAL_PARAM, socket_out)
  end.

(** The loop of [pqos_cpu_get_clusterid], started at [i]; the answer is the
    code returned and the contents of [*cluster]. *)
Fixpoint clusterid_loop (fuel : nat) (cpu : pqos_cpuinfo) (lcore_id i : Z)
    (cluster : Z) : option (retval * Z) :=
  match fuel with
  | O => None
  | S fuel' =>
      if i <? num_cores cpu then
        ci ← cores cpu !! Z.to_nat i;
        if lcore ci =? lcore_id then Some (PQOS_RETVAL_OK, l3_id ci)
        else clusterid_loop fuel' cpu lcore_id (uinc i) cluster
      else Some (PQOS_RETVAL_ERROR, cluster)
  end.

Definition pqos_cpu_get_clusterid (cpu : ptr pqos_cpuinfo) (lcore_id : Z)
    (cluster : ptr Z) : option (retval * ptr Z) :=
  match cpu, cluster with
  | Ptr c, Ptr old =>
      '(ret, v) ← clusterid_loop (S (Z.to_nat (num_cores c))) c lcore_id 0 old;
      Some (ret, Ptr v)
  | _, _ => Some (PQOS_RETVAL_PARAM, cluster)
  end.

(** The logical core ids of a snapshot are pairwise distinct (the invariant
    of TopologySnapshot in section 3 of the specification). *)
Definition lcores_unique (cpu : pqos_cpuinfo) : Prop :=
  NoDup (lcore <$> cores cpu).

End CoreLookup.

(** ** Classes of service and code/data prioritization *)

Module CosQuery.
Import Caps.

(** The members [u.l3ca] and [u.l2ca] of a capability. *)
Definition u_l3ca (c : pqos_capability) : option pqos_cap_ca :=
  match c with
  | Cap_l3ca x => Some x
  | _ => None
  end.

Definition u_l2ca (c : pqos_capability) : option pqos_cap_ca :=
  match c with
  | Cap_l2ca x => Some x
  | _ => None
  end.

(** [pqos_l3ca_get_cos_num]: the return code and the contents of
    [*cos_num] after the call. *)
Definition pqos_l3ca_get_cos_num (cap : ptr pqos_cap) (cos_num : ptr Z)
  : option (retval * ptr Z) :=
  match cap, cos_num with
  | Ptr c, Ptr _ =>
      '(ret, item) ← pqos_cap_get_type cap PQOS_CAP_TYPE_L3CA (Ptr NULL);
      if decide (ret ≠ PQOS_RETVAL_OK) then Some (ret, cos_num)
      else
        match item with
        | Ptr (Ptr (CapRef k)) =>
            it ← capabilities c !! Z.to_nat k;
            l3ca ← u_l3ca it;
            Some (ret, Ptr (num_classes l3ca))
        | _ => None
        end
  | _, _ => Some (PQOS_RETVAL_PARAM, cos_num)
  end.

Definition pqos_l2ca_get_cos_num (cap : ptr pqos_cap) (cos_num : ptr Z)
  : option (retval * ptr Z) :=
  match cap, cos_num with
  | Ptr c, Ptr _ =>
      '(ret, item) ← pqos_cap_get_type cap PQOS_CAP_TYPE_L2CA (Ptr NULL);
      if decide (ret ≠ PQOS_RETVAL_OK) then Some (ret, cos_num)
      else
        match item with
        | Ptr (Ptr (CapRef k)) =>
            it ← capabilities c !! Z.to_nat k;
            l2ca ← u_l2ca it;
            Some (ret, Ptr (num_classes l2ca))
        | _ => None
        end
  | _, _ => Some (PQOS_RETVAL_PARAM, cos_num)
  end.

(** [if (p != NULL) *p = v;] *)
Definition store_if_asked (p : ptr Z) (v : Z) : ptr Z :=
  match p with
  | NULL => NULL
  | Ptr _ => Ptr v
  end.

(** [pqos_l3ca_cdp_enabled]: the return code and the contents of
    [*cdp_supported] and [*cdp_enabled] after the call. *)
Definition pqos_l3ca_cdp_enabled (cap : ptr pqos_cap)
    (cdp_supported cdp_enabled : ptr Z) : option (retval * ptr Z * ptr Z) :=
  match cap, cdp_enabled, cdp_supported with
  | NULL, _, _ | _, NULL, NULL =>
      Some (PQOS_RETVAL_PARAM, cdp_supported, cdp_enabled)
  | Ptr c, _, _ =>
      '(ret, item) ← pqos_cap_get_type cap PQOS_CAP_TYPE_L3CA (Ptr NULL);
      if decide (ret ≠ PQOS_RETVAL_OK) then
        Some (ret, cdp_supported, cdp_enabled)
      else
        match item with
        | Ptr (Ptr (CapRef k)) =>
            it ← capabilities c !! Z.to_nat k;
            l3ca ← u_l3ca it;
            Some (ret, store_if_asked cdp_supported (cdp l3ca),
                  store_if_asked cdp_enabled (cdp_on l3ca))
        | _ => None
        end
  end.

End CosQuery.

(** ** Concrete snapshots *)

(** The four-core scenario of section 8 of the specification. *)
Definition scenario4 : pqos_cpuinfo :=
  mk_cpu [mk_core 0 0 0 0; mk_core 1 0 0 0; mk_core 2 1 1 1; mk_core 3 1 1 1].

(** A machine with a single core, on socket 5. *)
Definition single_core : pqos_cpuinfo := mk_cpu [mk_core 0 5 0 0].

(** Three cores on three sockets. *)
Definition three_sockets : pqos_cpuinfo :=
  mk_cpu [mk_core 0 0 0 0; mk_core 1 1 1 1; mk_core 2 2 2 2].

(** Three cores, the first one alone on its socket. *)
Definition lone_first_socket : pqos_cpuinfo :=
  mk_cpu [mk_core 0 5 0 0; mk_core 1 6 1 1; mk_core 2 6 1 1].

(** The four cores of the scenario and a third core on socket 1. *)
Definition crowded_socket : pqos_cpuinfo :=
  mk_cpu [mk_core 0 0 0 0; mk_core 1 0 0 0; mk_core 2 1 1 1; mk_core 3 1 1 1;
          mk_core 4 1 1 1].

(** A snapshot without cores. *)
Definition no_cores : pqos_cpuinfo := mk_cpu [].

(** The capability scenario of section 8: one L3 allocation record, no
    monitoring record. *)
Definition l3_only : Caps.pqos_cap :=
  {| Caps.num_cap := 1;
     Caps.capabilities :=
       [Caps.Cap_l3ca {| Caps.num_classes := 4; Caps.cdp := 1; Caps.cdp_on := 0 |}] |}.

(** A snapshot with an L3 allocation record and a monitoring record of two
    events. *)
Definition l3_and_mon : Caps.pqos_cap :=
  {| Caps.num_cap := 2;
     Caps.capabilities :=
       [Caps.Cap_l3ca {| Caps.num_classes := 4; Caps.cdp := 1; Caps.cdp_on := 0 |};
        Caps.Cap_mon
          {| Caps.num_events := 2;
             Caps.events :=
               [{| Caps.event_type := 1; Caps.max_rmid := 8; Caps.scale_factor := 64 |};
                {| Caps.event_type := 2; Caps.max_rmid := 8; Caps.scale_factor := 64 |}] |}] |}.

(** An L2 allocation record behind an L3 allocation record. *)
Definition l3_and_l2 : Caps.pqos_cap :=
  {| Caps.num_cap := 2;
     Caps.capabilities :=
       [Caps.Cap_l3ca {| Caps.num_classes := 4; Caps.cdp := 1; Caps.cdp_on := 0 |};
        Caps.Cap_l2ca {| Caps.num_classes := 8; Caps.cdp := 0; Caps.cdp_on := 0 |}] |}.

(** * Properties *)

Ltac solve_wf := split; [reflexivity | by vm_compute].

(** ** The scenarios of section 8 *)

Example count_scenario4 :
  Counter.pqos_cpu_get_num_sockets (Ptr scenario4) (Ptr 77)
  = Some (PQOS_RETVAL_OK, Ptr 2).
Proof. vm_compute. reflexivity. Qed.

Example l3_cores_scenario4 :
  Lister.pqos_cpu_get_cores_l3id Lister.calloc_like (Ptr scenario4) 1 (Ptr 77)
  = Some (Ptr [2; 3; 0; 0], Ptr 2).
Proof. vm_compute. reflexivity. Qed.

Example socket_cores_scenario4 :
  Sockets.pqos_cpu_get_cores (Ptr scenario4) 1 8 (Ptr 77) (Ptr (replicate 8 9))
  = Some (PQOS_RETVAL_OK, Ptr 2, Ptr [2; 3; 9; 9; 9; 9; 9; 9]).
Proof. vm_compute. reflexivity. Qed.

Example sockets_scenario4_overflow :
  Sockets.pqos_cpu_get_sockets (Ptr scenario4) 1 (Ptr 77) (Ptr [9])
  = Some (PQOS_RETVAL_ERROR, Ptr 77, Ptr [0]).
Proof. vm_compute. reflexivity. Qed.

Example find_mon_l3_only :
  Caps.pqos_cap_get_type (Ptr l3_only) Caps.PQOS_CAP_TYPE_MON (Ptr NULL)
  = Some (PQOS_RETVAL_RESOURCE, Ptr NULL).
Proof. vm_compute. reflexivity. Qed.

Example find_event_l3_only :
  Caps.pqos_cap_get_event (Ptr l3_only) 1 (Ptr NULL)
  = Some (PQOS_RETVAL_RESOURCE, Ptr NULL).
Proof. vm_compute. reflexivity. Qed.

Example find_event_l3_and_mon :
  Caps.pqos_cap_get_event (Ptr l3_and_mon) 2 (Ptr NULL)
  = Some (PQOS_RETVAL_OK, Ptr (Ptr (Caps.EventRef 1 1))).
Proof. vm_compute. reflexivity. Qed.

(** ** Arithmetic of [unsigned] and bounds-checked stores *)

Lemma uinc_small (x : Z) : 0 <= x < UINT_MAX → uinc x = x + 1.
Proof.
  intros Hx. unfold uinc, UINT_MAX in *. apply Z.mod_small. lia.
Qed.

Lemma uinc_of_nat (n : nat) :
  Z.of_nat n < UINT_MAX → uinc (Z.of_nat n) = Z.of_nat (S n).
Proof.
  intros Hn. rewrite uinc_small by lia. lia.
Qed.

Lemma store_of_nat (buf : list Z) (n : nat) (v : Z) :
  (n < length buf)%nat → store buf (Z.of_nat n) v = Some (<[n := v]> buf).
Proof.
  intros Hn. unfold store. rewrite Nat2Z.id.
  destruct (decide (n < length buf)%nat); [reflexivity | lia].
Qed.

(** Writing just behind a prefix of the buffer extends the prefix. *)
Lemma insert_after_prefix (pre rest : list Z) (v : Z) :
  rest ≠ [] →
  <[length pre := v]> (pre ++ rest) = (pre ++ [v]) ++ drop 1 rest.
Proof.
  intros Hrest. destruct rest as [|r rest]; [done|].
  rewrite insert_app_r_alt by lia. rewrite Nat.sub_diag. simpl.
  rewrite drop_0. by rewrite <- app_assoc.
Qed.

(** ** Counting topology objects *)

Section counter.
Import Counter.

Lemma already_counted_key (type : Z) (a b : pqos_coreinfo) :
  valid_topo_obj type →
  already_counted type a b = true ↔ topo_key type a = topo_key type b.
Proof.
  intros [-> | [-> | ->]]; unfold already_counted, topo_key; simpl;
    match goal with |- context [?x =? ?y] => destruct (Z.eqb_spec x y) end;
    split; congruence.
Qed.

Lemma scan_earlier_spec (cpu : pqos_cpuinfo) (type : Z) (n : nat)
    (ci : pqos_coreinfo) :
  cores cpu !! n = Some ci →
  Z.of_nat n <= UINT_MAX →
  ∀ (k m fuel : nat),
    (m + k = n)%nat → (k < fuel)%nat →
    ∃ j : nat,
      scan_earlier fuel cpu type (Z.of_nat n) (Z.of_nat m) = Some (Z.of_nat j)
      ∧ (m ≤ j ≤ n)%nat
      ∧ (∀ x cx, (m ≤ x < j)%nat → cores cpu !! x = Some cx →
                 already_counted type ci cx = false)
      ∧ ((j < n)%nat →
         ∃ cj, cores cpu !! j = Some cj ∧ already_counted type ci cj = true).
Proof.
  intros Hci Hn k. induction k as [|k IH]; intros m fuel Hm Hfuel.
  - destruct fuel as [|fuel]; [lia|]. exists m. simpl.
    destruct (Z.ltb_spec (Z.of_nat m) (Z.of_nat n)); [lia|].
    split; [done|]. split; [lia|]. split; intros; lia.
  - destruct fuel as [|fuel]; [lia|]. simpl.
    destruct (Z.ltb_spec (Z.of_nat m) (Z.of_nat n)); [|lia].
    rewrite !Nat2Z.id, Hci. simpl.
    destruct (lookup_lt_is_Some_2 (cores cpu) m) as [cm Hcm].
    { apply lookup_lt_Some in Hci. lia. }
    rewrite Hcm. simpl.
    destruct (already_counted type ci cm) eqn:Hseen.
    + exists m. split; [done|]. split; [lia|]. split; [intros; lia|]. eauto.
    + rewrite uinc_of_nat by lia.
      destruct (IH (S m) fuel) as (j & Hj & Hrange & Hbefore & Hat); [lia..|].
      exists j. split; [done|]. split; [lia|]. split; [|done].
      intros x cx Hx Hcx. destruct (decide (x = m)) as [->|Hne].
      * congruence.
      * apply (Hbefore x); [lia|done].
Qed.

(** Whether the inner loop ran to its end tells whether the key of core [n]
    is new among the cores before it. *)
Lemma scan_earlier_new (cpu : pqos_cpuinfo) (type : Z) (n : nat)
    (ci : pqos_coreinfo) :
  valid_topo_obj type →
  cores cpu !! n = Some ci →
  Z.of_nat n <= UINT_MAX →
  ∃ j : Z,
    scan_earlier (S (Z.to_nat (Z.of_nat n))) cpu type (Z.of_nat n) 0 = Some j
    ∧ (Z.of_nat n <=? j)
      = bool_decide (topo_key type ci ∉ topo_key type <$> take n (cores cpu)).
Proof.
  intros Hty Hci Hn.
  destruct (scan_earlier_spec cpu type n ci Hci Hn n 0%nat (S (Z.to_nat (Z.of_nat n))))
    as (j & Hj & Hrange & Hbefore & Hat); [lia..|].
  exists (Z.of_nat j). split; [exact Hj|].
  destruct (Z.leb_spec (Z.of_nat n) (Z.of_nat j)) as [Hle|Hlt]; symmetry.
  - apply bool_decide_eq_true. intros Hin.
    apply list_elem_of_fmap in Hin as (cx & Hkey & Hcx).
    apply list_elem_of_lookup in Hcx as (x & Hx).
    apply lookup_take_Some in Hx as [Hx Hxn].
    assert (already_counted type ci cx = false) as Hfalse
      by (apply (Hbefore x); [lia|done]).
    apply (already_counted_key type ci cx Hty) in Hkey. congruence.
  - apply bool_decide_eq_false. intros Hnotin. apply Hnotin.
    destruct Hat as (cj & Hcj & Hseen); [lia|].
    apply (already_counted_key type ci cj Hty) in Hseen. rewrite Hseen.
    apply list_elem_of_fmap. exists cj. split; [done|].
    apply list_elem_of_lookup. exists j. apply lookup_take_Some. split; [done|lia].
Qed.

Lemma distinct_keys_snoc (type : Z) (l : list pqos_coreinfo) (n : nat)
    (ci : pqos_coreinfo) :
  l !! n = Some ci →
  distinct_keys type (take (S n) l)
  = if bool_decide (topo_key type ci ∉ topo_key type <$> take n l)
    then distinct_keys type (take n l) + 1
    else distinct_keys type (take n l).
Proof.
  intros Hci. unfold distinct_keys.
  rewrite (take_S_r _ _ _ Hci), fmap_app, list_to_set_app_L. simpl.
  case_bool_decide as Hnew.
  - rewrite union_empty_r_L, size_union, size_singleton; [lia|].
    apply disjoint_singleton_r. by rewrite elem_of_list_to_set.
  - f_equal. f_equal. rewrite union_empty_r_L.
    apply (elem_of_list_to_set (C := gset Z)) in Hnew.
    apply leibniz_equiv. rewrite (comm (∪)).
    by apply subseteq_union_1, singleton_subseteq_l.
Qed.

Lemma distinct_keys_le (type : Z) (l : list pqos_coreinfo) :
  distinct_keys type l <= Z.of_nat (length l).
Proof.
  unfold distinct_keys. apply inj_le.
  rewrite <- (length_fmap (topo_key type) l).
  generalize (topo_key type <$> l). intros ks.
  induction ks as [|x ks IH]; simpl.
  - done.
  - rewrite size_union_alt, size_singleton.
    assert (size (list_to_set (C := gset Z) ks ∖ {[x]})
            ≤ size (list_to_set (C := gset Z) ks))%nat
      by (apply subseteq_size, subseteq_difference_l; done).
    lia.
Qed.

Lemma count_loop_S (fuel : nat) (cpu : pqos_cpuinfo) (type i count : Z) :
  count_loop (S fuel) cpu type i count
  = if i <? num_cores cpu then
      j ← scan_earlier (S (Z.to_nat i)) cpu type i 0;
      count_loop fuel cpu type (uinc i) (if i <=? j then uinc count else count)
    else Some count.
Proof. reflexivity. Qed.

Lemma count_loop_spec (cpu : pqos_cpuinfo) (type : Z) :
  cpu_wf cpu → valid_topo_obj type →
  ∀ (k n fuel : nat),
    (n + k = length (cores cpu))%nat → (k < fuel)%nat →
    count_loop fuel cpu type (Z.of_nat n)
      (distinct_keys type (take n (cores cpu)))
    = Some (distinct_keys type (cores cpu)).
Proof.
  intros [Hlen Hmax] Hty k. induction k as [|k IH]; intros n fuel Hn Hfuel.
  - destruct fuel as [|fuel]; [lia|]. rewrite count_loop_S.
    destruct (Z.ltb_spec (Z.of_nat n) (num_cores cpu)); [lia|].
    rewrite take_ge by lia. done.
  - destruct fuel as [|fuel]; [lia|]. rewrite count_loop_S.
    destruct (Z.ltb_spec (Z.of_nat n) (num_cores cpu)); [|lia].
    destruct (lookup_lt_is_Some_2 (cores cpu) n) as [ci Hci]; [lia|].
    destruct (scan_earlier_new cpu type n ci Hty Hci) as (j & Hj & Hnew); [lia|].
    rewrite Hj. simpl. rewrite Hnew.
    rewrite uinc_of_nat by lia.
    rewrite <- (IH (S n) fuel) by lia. f_equal.
    rewrite (distinct_keys_snoc type _ n ci Hci).
    case_bool_decide; [|done].
    apply uinc_small. split.
    + unfold distinct_keys. lia.
    + pose proof (distinct_keys_le type (take n (cores cpu))) as Hle.
      rewrite length_take in Hle. lia.
Qed.

End counter.

Section counter_claims.
Import Counter.

Lemma distinct_keys_take_1 (type : Z) (l : list pqos_coreinfo) :
  l ≠ [] → distinct_keys type (take 1 l) = 1.
Proof.
  destruct l as [|c l]; [done|]. intros _. unfold distinct_keys.
  change (topo_key type <$> take 1 (c :: l)) with [topo_key type c].
  by rewrite list_to_set_singleton_L, size_singleton.
Qed.

Lemma distinct_keys_pos (type : Z) (l : list pqos_coreinfo) :
  l ≠ [] → 0 < distinct_keys type l.
Proof.
  destruct l as [|c l]; [done|]. intros _. unfold distinct_keys.
  assert (size (list_to_set (C := gset Z) (topo_key type <$> c :: l)) ≠ 0)%nat
    as Hne; [|lia].
  apply size_non_empty_iff. apply (non_empty_inhabited (topo_key type c)).
  apply elem_of_list_to_set, list_elem_of_fmap. exists c. split; [done|].
  apply list_elem_of_here.
Qed.

(** C1: on a snapshot with at least one core and for a grouping key that is
    socket, L2 cluster or L3 cluster, [__get_num_of_topology_objs] answers
    the number of elements of the set of values of the key over the cores of
    the snapshot; [pqos_cpu_get_num_sockets] reports that number for the
    sockets, with [PQOS_RETVAL_OK]. *)
Theorem C1_count_is_number_of_distinct_keys
    (cpu : pqos_cpuinfo) (type old : Z) :
  cpu_wf cpu → 0 < num_cores cpu → valid_topo_obj type →
  __get_num_of_topology_objs (Ptr cpu) type
  = Some (Z.of_nat (size (list_to_set (C := gset Z)
                            (topo_key type <$> cores cpu))))
  ∧ pqos_cpu_get_num_sockets (Ptr cpu) (Ptr old)
    = Some (PQOS_RETVAL_OK,
            Ptr (Z.of_nat (size (list_to_set (C := gset Z)
                                   (socket <$> cores cpu))))).
Proof.
  intros Hwf Hpos Hty.
  assert (cores cpu ≠ []) as Hne.
  { destruct Hwf as [Hlen _]. intros Hnil. rewrite Hnil in Hlen. simpl in Hlen. lia. }
  assert (∀ ty, valid_topo_obj ty →
            __get_num_of_topology_objs (Ptr cpu) ty
            = Some (distinct_keys ty (cores cpu))) as Hcount.
  { intros ty Hvalid. unfold __get_num_of_topology_objs.
    replace (negb (ty =? TOPO_OBJ_SOCKET) && negb (ty =? TOPO_OBJ_L2_CLUSTER)
             && negb (ty =? TOPO_OBJ_L3_CLUSTER)) with false
      by (destruct Hvalid as [-> | [-> | ->]]; reflexivity).
    destruct (Z.eqb_spec (num_cores cpu) 0); [lia|].
    pose proof (count_loop_spec cpu ty Hwf Hvalid (length (cores cpu) - 1) 1
                  (Z.to_nat (num_cores cpu))) as Hloop.
    rewrite (distinct_keys_take_1 ty (cores cpu) Hne) in Hloop.
    apply Hloop; destruct Hwf; lia. }
  split; [exact (Hcount type Hty)|].
  unfold pqos_cpu_get_num_sockets.
  rewrite (Hcount TOPO_OBJ_SOCKET) by (left; reflexivity). simpl.
  pose proof (distinct_keys_pos TOPO_OBJ_SOCKET (cores cpu) Hne) as Hgt.
  destruct (Z.eqb_spec (distinct_keys TOPO_OBJ_SOCKET (cores cpu)) 0); [lia|].
  reflexivity.
Qed.

Lemma C1_witness :
  __get_num_of_topology_objs (Ptr scenario4) TOPO_OBJ_L3_CLUSTER
  = Some (Z.of_nat (size (list_to_set (C := gset Z)
                            (topo_key TOPO_OBJ_L3_CLUSTER <$> cores scenario4))))
  ∧ pqos_cpu_get_num_sockets (Ptr scenario4) (Ptr 77)
    = Some (PQOS_RETVAL_OK,
            Ptr (Z.of_nat (size (list_to_set (C := gset Z)
                                   (socket <$> cores scenario4))))).
Proof.
  apply (C1_count_is_number_of_distinct_keys scenario4 TOPO_OBJ_L3_CLUSTER 77).
  - solve_wf.
  - reflexivity.
  - right; right; reflexivity.
Defined.

End counter_claims.

(** ** Inputs on which nothing is counted *)

Section counter_failures.
Import Counter.





End counter_failures.

(** ** Listing the sockets *)

Section sockets_single_core.
Import Counter Sockets.

(** C2 at a machine with one core, and at a machine with two cores on two
    sockets: [pqos_cpu_get_sockets] goes through the cores from the second
    one on, so the socket of the first core is listed only when a later core
    is on it, while [pqos_cpu_get_num_sockets] counts it. With one core no
    socket is listed; with sockets 0 and 1 and room for one id the call
    succeeds and lists socket 1 alone. *)
Theorem C2_first_socket_not_listed :
  pqos_cpu_get_sockets (Ptr single_core) 1 (Ptr 77) (Ptr [9])
  = Some (PQOS_RETVAL_OK, Ptr 0, Ptr [9])
  ∧ pqos_cpu_get_num_sockets (Ptr single_core) (Ptr 77)
    = Some (PQOS_RETVAL_OK, Ptr 1)
  ∧ pqos_cpu_get_sockets (Ptr (mk_cpu [mk_core 0 0 0 0; mk_core 1 1 1 1])) 1
      (Ptr 77) (Ptr [9])
    = Some (PQOS_RETVAL_OK, Ptr 1, Ptr [1]).
Proof. repeat split; vm_compute; reflexivity. Qed.

End sockets_single_core.

Section sockets_loops.
Import Sockets.

Lemma find_socket_spec (buf : list Z) (s : Z) (sc : nat) :
  (sc ≤ length buf)%nat →
  Z.of_nat sc <= UINT_MAX →
  ∀ (k m fuel : nat),
    (m + k = sc)%nat → (k < fuel)%nat →
    ∃ j : nat,
      find_socket fuel buf s (Z.of_nat sc) (Z.of_nat m) = Some (Z.of_nat j)
      ∧ (m ≤ j ≤ sc)%nat
      ∧ (∀ x, (m ≤ x < j)%nat → buf !! x ≠ Some s)
      ∧ ((j < sc)%nat → buf !! j = Some s).
Proof.
  intros Hlen Hmax k. induction k as [|k IH]; intros m fuel Hm Hfuel.
  - destruct fuel as [|fuel]; [lia|]. exists m. simpl.
    destruct (Z.ltb_spec (Z.of_nat m) (Z.of_nat sc)); [lia|]. simpl.
    split; [done|]. split; [lia|]. split; intros; lia.
  - destruct fuel as [|fuel]; [lia|]. simpl.
    destruct (Z.ltb_spec (Z.of_nat m) (Z.of_nat sc)); [|lia].
    destruct (Z.ltb_spec 0 (Z.of_nat sc)); [|lia]. simpl.
    rewrite Nat2Z.id.
    destruct (lookup_lt_is_Some_2 buf m) as [v Hv]; [lia|].
    rewrite Hv. simpl.
    destruct (Z.eqb_spec s v) as [->|Hne].
    + exists m. split; [done|]. split; [lia|]. split; [intros; lia|]. done.
    + rewrite uinc_of_nat by lia.
      destruct (IH (S m) fuel) as (j & Hj & Hrange & Hbefore & Hat); [lia..|].
      exists j. split; [done|]. split; [lia|]. split; [|done].
      intros x Hx. destruct (decide (x = m)) as [->|Hxm].
      * rewrite Hv. congruence.
      * apply Hbefore. lia.
Qed.

(** The test after the inner loop of [pqos_cpu_get_sockets] tells whether
    the socket is new to the ids listed so far. *)
Lemma find_socket_new (seen rest : list Z) (s : Z) :
  Z.of_nat (length seen) <= UINT_MAX →
  ∃ j : Z,
    find_socket (S (Z.to_nat (Z.of_nat (length seen)))) (seen ++ rest) s
      (Z.of_nat (length seen)) 0 = Some j
    ∧ (Z.of_nat (length seen) <=? j) || (Z.of_nat (length seen) =? 0)
      = bool_decide (s ∉ seen).
Proof.
  intros Hmax.
  destruct (find_socket_spec (seen ++ rest) s (length seen)) with
    (k := length seen) (m := 0%nat) (fuel := S (Z.to_nat (Z.of_nat (length seen))))
    as (j & Hj & Hrange & Hbefore & Hat);
    [rewrite length_app; lia | lia..|].
  exists (Z.of_nat j). split; [exact Hj|].
  destruct (Z.leb_spec (Z.of_nat (length seen)) (Z.of_nat j)) as [Hle|Hlt];
    simpl; symmetry.
  - apply bool_decide_eq_true. intros Hin.
    apply list_elem_of_lookup in Hin as (x & Hx).
    apply (Hbefore x).
    + apply lookup_lt_Some in Hx. lia.
    + by apply lookup_app_l_Some.
  - destruct (Z.eqb_spec (Z.of_nat (length seen)) 0); [lia|].
    apply bool_decide_eq_false. intros Hnotin. apply Hnotin.
    apply list_elem_of_lookup. exists j.
    rewrite <- (lookup_app_l seen rest) by lia. apply Hat. lia.
Qed.

Lemma first_seen_from_prefix (seen l : list Z) :
  ∃ more, first_seen_from seen l = seen ++ more.
Proof.
  revert seen. induction l as [|s l IH]; intros seen; simpl.
  - exists []. by rewrite app_nil_r.
  - case_decide; [apply IH|].
    destruct (IH (seen ++ [s])) as [more ->]. exists (s :: more).
    by rewrite <- app_assoc.
Qed.

Lemma first_seen_from_length (seen l : list Z) :
  (length seen ≤ length (first_seen_from seen l))%nat.
Proof.
  destruct (first_seen_from_prefix seen l) as [more ->].
  rewrite length_app. lia.
Qed.

Lemma sockets_loop_S (fuel : nat) (cpu : pqos_cpuinfo) (max_count : Z)
    (i scount : Z) (sockets : list Z) :
  sockets_loop (S fuel) cpu max_count i scount sockets
  = if i <? num_cores cpu then
      ci ← cores cpu !! Z.to_nat i;
      j ← find_socket (S (Z.to_nat scount)) sockets (socket ci) scount 0;
      if (scount <=? j) || (scount =? 0) then
        if max_count <=? scount then
          Some (Return PQOS_RETVAL_ERROR, scount, sockets)
        else
          sockets' ← store sockets scount (socket ci);
          sockets_loop fuel cpu max_count (uinc i) (uinc scount) sockets'
      else sockets_loop fuel cpu max_count (uinc i) scount sockets
    else Some (Fallthrough, scount, sockets).
Proof. reflexivity. Qed.

(** The loop of [pqos_cpu_get_sockets] from core [n] on, with the ids
    [seen] in the buffer: when the ids in first-seen order fit
    [max_count], they are in the buffer at the end of the loop; when they do
    not, the loop is left by [return PQOS_RETVAL_ERROR]. *)
Lemma sockets_loop_spec (cpu : pqos_cpuinfo) (max_count : Z) :
  cpu_wf cpu → max_count <= UINT_MAX →
  ∀ (k n fuel : nat) (seen rest : list Z),
    (length (cores cpu) ≤ n + k)%nat → (k < fuel)%nat →
    Z.of_nat (length seen) <= max_count →
    max_count <= Z.of_nat (length (seen ++ rest)) →
    let ids := first_seen_from seen (socket <$> drop n (cores cpu)) in
    if decide (Z.of_nat (length ids) <= max_count) then
      sockets_loop fuel cpu max_count (Z.of_nat n) (Z.of_nat (length seen))
        (seen ++ rest)
      = Some (Fallthrough, Z.of_nat (length ids),
              ids ++ drop (length ids - length seen) rest)
    else
      ∃ scount buf,
        sockets_loop fuel cpu max_count (Z.of_nat n) (Z.of_nat (length seen))
          (seen ++ rest)
        = Some (Return PQOS_RETVAL_ERROR, scount, buf).
Proof.
  intros [Hlen Hnum] Hmax k.
  induction k as [|k IH]; intros n fuel seen rest Hn Hfuel Hseen Hroom;
    (destruct fuel as [|fuel]; [lia|]); rewrite sockets_loop_S;
    (destruct (Z.ltb_spec (Z.of_nat n) (num_cores cpu)) as [Hlt|Hge];
     [|rewrite drop_ge by lia; simpl; rewrite decide_True by lia;
       by rewrite Nat.sub_diag, drop_0]);
    [lia|].
  destruct (lookup_lt_is_Some_2 (cores cpu) n) as [ci Hci]; [lia|].
  rewrite (Nat2Z.id n), Hci, (drop_S _ _ _ Hci), fmap_cons.
  cbn [mbind option_bind first_seen_from].
  destruct (find_socket_new seen rest (socket ci)) as (j & -> & Hj); [lia|].
  cbn [mbind option_bind]. rewrite Hj. case_bool_decide as Hnew.
  - rewrite (decide_False (P := socket ci ∈ seen)) by done.
    pose proof (first_seen_from_length (seen ++ [socket ci])
                  (socket <$> drop (S n) (cores cpu))) as Hgrow.
    rewrite length_app in Hgrow. simpl in Hgrow.
    destruct (Z.leb_spec max_count (Z.of_nat (length seen))) as [Hfull|Hfree].
    + rewrite decide_False by lia. by eauto.
    + rewrite length_app in Hroom.
      rewrite store_of_nat by (rewrite length_app; lia).
      cbn [mbind option_bind].
      rewrite uinc_of_nat, uinc_of_nat by lia.
      rewrite insert_after_prefix by (intros ->; simpl in *; lia).
      specialize (IH (S n) fuel (seen ++ [socket ci]) (drop 1 rest)).
      rewrite !length_app, length_drop in IH. simpl in IH.
      replace (S (length seen)) with (length seen + 1)%nat by lia.
      specialize (IH ltac:(lia) ltac:(lia) ltac:(lia) ltac:(lia)).
      case_decide; [|exact IH].
      rewrite IH, drop_drop.
      set (len := length (first_seen_from _ _)) in *.
      by replace (1 + (len - (length seen + 1)))%nat
        with (len - length seen)%nat by lia.
  - assert (socket ci ∈ seen) as Hin
      by (destruct (decide (socket ci ∈ seen)); tauto).
    rewrite (decide_True (P := socket ci ∈ seen)) by done.
    rewrite uinc_of_nat by lia.
    apply (IH (S n) fuel seen rest); lia.
Qed.

Lemma elem_of_first_seen_from (seen l : list Z) (x : Z) :
  x ∈ first_seen_from seen l ↔ x ∈ seen ∨ x ∈ l.
Proof.
  revert seen. induction l as [|s l IH]; intros seen; simpl.
  - rewrite elem_of_nil. tauto.
  - rewrite elem_of_cons. case_decide as Hs; rewrite IH.
    + split; [tauto|]. intros [?|[->|?]]; tauto.
    + rewrite elem_of_app, list_elem_of_singleton. tauto.
Qed.

Lemma NoDup_first_seen_from (seen l : list Z) :
  NoDup seen → NoDup (first_seen_from seen l).
Proof.
  revert seen. induction l as [|s l IH]; intros seen Hseen; simpl; [done|].
  case_decide as Hs; apply IH; [done|].
  apply NoDup_app. split; [done|]. split; [|apply NoDup_singleton].
  intros x Hx ->%list_elem_of_singleton. done.
Qed.

(** The ids in first-seen order are the ids of the list, each once. *)
Lemma first_seen_distinct (l : list Z) :
  NoDup (first_seen l) ∧ ∀ x, x ∈ first_seen l ↔ x ∈ l.
Proof.
  split.
  - apply NoDup_first_seen_from, NoDup_nil_2.
  - intros x. unfold first_seen. rewrite elem_of_first_seen_from, elem_of_nil.
    tauto.
Qed.

(** What [pqos_cpu_get_sockets] does on valid arguments: it lists, in
    first-seen order, the sockets of the cores from the second one on. *)
Lemma pqos_cpu_get_sockets_spec (cpu : pqos_cpuinfo) (max_count old : Z)
    (buf : list Z) :
  cpu_wf cpu → 0 < max_count <= UINT_MAX →
  max_count <= Z.of_nat (length buf) →
  let ids := first_seen (socket <$> drop 1 (cores cpu)) in
  if decide (Z.of_nat (length ids) <= max_count) then
    pqos_cpu_get_sockets (Ptr cpu) max_count (Ptr old) (Ptr buf)
    = Some (PQOS_RETVAL_OK, Ptr (Z.of_nat (length ids)),
            Ptr (ids ++ drop (length ids) buf))
  else
    ∃ buf',
      pqos_cpu_get_sockets (Ptr cpu) max_count (Ptr old) (Ptr buf)
      = Some (PQOS_RETVAL_ERROR, Ptr old, Ptr buf').
Proof.
  intros Hwf Hmax Hroom ids. unfold pqos_cpu_get_sockets.
  destruct (Z.eqb_spec max_count 0); [lia|].
  pose proof (sockets_loop_spec cpu max_count Hwf ltac:(lia)
                (length (cores cpu)) 1 (S (Z.to_nat (num_cores cpu))) [] buf)
    as Hloop.
  destruct Hwf as [Hlen Hnum]. cbn [length app] in Hloop.
  change (Z.of_nat 1) with 1 in Hloop. change (Z.of_nat 0) with 0 in Hloop.
  specialize (Hloop ltac:(lia) ltac:(lia) ltac:(lia) ltac:(lia)).
  fold (first_seen (socket <$> drop 1 (cores cpu))) in Hloop. fold ids in Hloop.
  case_decide.
  - rewrite Hloop. simpl. by rewrite Nat.sub_0_r.
  - destruct Hloop as (scount & buf' & ->). simpl. by eauto.
Qed.

(** C10, as the code has it: when the socket of the first core is on no
    later core, and the ids of the later cores fit [max_count], then
    [pqos_cpu_get_sockets], called with valid arguments, answers
    [PQOS_RETVAL_OK] and lists the sockets of the later cores in first-seen
    order, the socket of the first core not among them; with a single core
    it reports 0 sockets and leaves the buffer as it was. *)
Theorem C10_first_socket_left_out
    (cpu : pqos_cpuinfo) (c0 : pqos_coreinfo) (later : list pqos_coreinfo)
    (max_count old : Z) (buf : list Z) :
  cpu_wf cpu → cores cpu = c0 :: later →
  socket c0 ∉ socket <$> later →
  0 < max_count <= UINT_MAX →
  max_count <= Z.of_nat (length buf) →
  Z.of_nat (length (first_seen (socket <$> later))) <= max_count →
  let ids := first_seen (socket <$> later) in
  pqos_cpu_get_sockets (Ptr cpu) max_count (Ptr old) (Ptr buf)
  = Some (PQOS_RETVAL_OK, Ptr (Z.of_nat (length ids)),
          Ptr (ids ++ drop (length ids) buf))
  ∧ (socket c0 ∉ ids)
  ∧ (later = [] →
     pqos_cpu_get_sockets (Ptr cpu) max_count (Ptr old) (Ptr buf)
     = Some (PQOS_RETVAL_OK, Ptr 0, Ptr buf)).
Proof.
  intros Hwf Hcores Hfirst Hmax Hroom Hfit ids.
  pose proof (pqos_cpu_get_sockets_spec cpu max_count old buf Hwf Hmax Hroom)
    as Hspec.
  rewrite Hcores in Hspec. cbn [drop] in Hspec. rewrite drop_0 in Hspec.
  cbv zeta in Hspec. rewrite decide_True in Hspec by done.
  split; [exact Hspec|]. split.
  - intros Hin. apply Hfirst. by apply (first_seen_distinct (socket <$> later)).
  - intros ->. exact Hspec.
Qed.

Lemma C10_witness :
  pqos_cpu_get_sockets (Ptr lone_first_socket) 2 (Ptr 77) (Ptr [9; 9])
  = Some (PQOS_RETVAL_OK, Ptr 1, Ptr [6; 9])
  ∧ 5 ∉ [6].
Proof.
  destruct (C10_first_socket_left_out lone_first_socket (mk_core 0 5 0 0)
              [mk_core 1 6 1 1; mk_core 2 6 1 1] 2 77 [9; 9])
    as (Hcall & Hout & _).
  - solve_wf.
  - reflexivity.
  - intros Hin. apply elem_of_cons in Hin as [Heq | Hin]; [discriminate Heq|].
    apply elem_of_cons in Hin as [Heq | Hin]; [discriminate Heq|].
    by apply elem_of_nil in Hin.
  - split; by vm_compute.
  - by vm_compute.
  - by vm_compute.
  - split; [exact Hcall | exact Hout].
Defined.

(** C10, as it is stated, fails when the sockets of the later cores do not
    fit [max_count]: with three cores on the sockets 0, 1 and 2 and room for
    one id the call is [PQOS_RETVAL_ERROR], though socket 0 is on no later
    core. *)
Lemma C10_overflow_is_not_ok :
  (socket (mk_core 0 0 0 0) ∉ socket <$> [mk_core 1 1 1 1; mk_core 2 2 2 2])
  ∧ pqos_cpu_get_sockets (Ptr three_sockets) 1 (Ptr 77) (Ptr [9])
    = Some (PQOS_RETVAL_ERROR, Ptr 77, Ptr [1])
  ∧ PQOS_RETVAL_ERROR ≠ PQOS_RETVAL_OK.
Proof.
  split; [|split; [by vm_compute | discriminate]].
  intros Hin. apply elem_of_cons in Hin as [Heq | Hin]; [discriminate Heq|].
  apply elem_of_cons in Hin as [Heq | Hin]; [discriminate Heq|].
  by apply elem_of_nil in Hin.
Qed.

End sockets_loops.

(** ** The cores of a socket *)

Section cores_loops.
Import Sockets.

Lemma cores_loop_S (fuel : nat) (cpu : pqos_cpuinfo) (socket_id max_count : Z)
    (i cnt count : Z) (cores_out : list Z) :
  cores_loop (S fuel) cpu socket_id max_count i cnt count cores_out
  = if i <? num_cores cpu then
      ci ← cores cpu !! Z.to_nat i;
      if socket ci =? socket_id then
        if max_count =? 1 then
          cores_out' ← store cores_out 0 (lcore ci);
          Some (Return PQOS_RETVAL_OK, cnt, 1, cores_out')
        else if max_count <=? cnt then
          Some (Return PQOS_RETVAL_ERROR, cnt, count, cores_out)
        else
          cores_out' ← store cores_out cnt (lcore ci);
          cores_loop fuel cpu socket_id max_count (uinc i) (uinc cnt) count
            cores_out'
      else cores_loop fuel cpu socket_id max_count (uinc i) cnt count cores_out
    else Some (Fallthrough, cnt, count, cores_out).
Proof. reflexivity. Qed.

Lemma cores_of_socket_cons (socket_id : Z) (c : pqos_coreinfo)
    (l : list pqos_coreinfo) :
  cores_of_socket socket_id (c :: l)
  = if socket c =? socket_id then lcore c :: cores_of_socket socket_id l
    else cores_of_socket socket_id l.
Proof.
  unfold cores_of_socket. rewrite filter_cons.
  destruct (Z.eqb_spec (socket c) socket_id).
  - by rewrite decide_True.
  - by rewrite decide_False.
Qed.

(** The loop of [pqos_cpu_get_cores] for [max_count > 1], from core [n] on,
    with the ids [pre] in the buffer. *)
Lemma cores_loop_many (cpu : pqos_cpuinfo) (socket_id max_count count : Z) :
  cpu_wf cpu → 1 < max_count <= UINT_MAX →
  ∀ (k n fuel : nat) (pre rest : list Z),
    (length (cores cpu) ≤ n + k)%nat → (k < fuel)%nat →
    Z.of_nat (length pre) <= max_count →
    max_count <= Z.of_nat (length (pre ++ rest)) →
    let found := cores_of_socket socket_id (drop n (cores cpu)) in
    if decide (Z.of_nat (length (pre ++ found)) <= max_count) then
      cores_loop fuel cpu socket_id max_count (Z.of_nat n)
        (Z.of_nat (length pre)) count (pre ++ rest)
      = Some (Fallthrough, Z.of_nat (length (pre ++ found)), count,
              (pre ++ found) ++ drop (length found) rest)
    else
      ∃ cnt buf,
        cores_loop fuel cpu socket_id max_count (Z.of_nat n)
          (Z.of_nat (length pre)) count (pre ++ rest)
        = Some (Return PQOS_RETVAL_ERROR, cnt, count, buf).
Proof.
  intros [Hlen Hnum] Hmax k.
  induction k as [|k IH]; intros n fuel pre rest Hn Hfuel Hpre Hroom;
    (destruct fuel as [|fuel]; [lia|]); rewrite cores_loop_S;
    (destruct (Z.ltb_spec (Z.of_nat n) (num_cores cpu)) as [Hlt|Hge];
     [|rewrite drop_ge by lia; change (cores_of_socket socket_id []) with (@nil Z);
       cbv zeta; rewrite app_nil_r; case_decide; [by rewrite drop_0 | lia]]);
    [lia|].
  destruct (lookup_lt_is_Some_2 (cores cpu) n) as [ci Hci]; [lia|].
  rewrite (Nat2Z.id n), Hci, (drop_S _ _ _ Hci), cores_of_socket_cons.
  cbn [mbind option_bind].
  destruct (Z.eqb_spec (socket ci) socket_id) as [Hsock|Hsock].
  - destruct (Z.eqb_spec max_count 1); [lia|].
    cbv zeta. rewrite length_app. cbn [length].
    destruct (Z.leb_spec max_count (Z.of_nat (length pre))) as [Hfull|Hfree].
    + case_decide; [lia|]. by eauto.
    + rewrite length_app in Hroom.
      rewrite store_of_nat by (rewrite length_app; lia).
      cbn [mbind option_bind].
      rewrite uinc_of_nat, uinc_of_nat by lia.
      rewrite insert_after_prefix by (intros ->; simpl in *; lia).
      specialize (IH (S n) fuel (pre ++ [lcore ci]) (drop 1 rest)).
      rewrite !length_app, length_drop in IH. cbn [length] in IH.
      replace (S (length pre)) with (length pre + 1)%nat by lia.
      specialize (IH ltac:(lia) ltac:(lia) ltac:(lia) ltac:(lia)).
      cbv zeta in IH. rewrite !length_app in IH. cbn [length] in IH.
      set (found := cores_of_socket socket_id (drop (S n) (cores cpu))) in *.
      replace (length pre + S (length found))%nat
        with (length pre + 1 + length found)%nat by lia.
      revert IH. case_decide; intros IH; [|exact IH].
      rewrite IH, drop_drop, <- (app_assoc pre [lcore ci] found). done.
  - rewrite uinc_of_nat by lia. apply (IH (S n) fuel pre rest); lia.
Qed.

(** The loop of [pqos_cpu_get_cores] for [max_count = 1]: it is left at the
    first core of the socket. *)
Lemma cores_loop_first (cpu : pqos_cpuinfo) (socket_id count : Z)
    (buf : list Z) :
  cpu_wf cpu → (0 < length buf)%nat →
  ∀ (k n fuel : nat),
    (length (cores cpu) ≤ n + k)%nat → (k < fuel)%nat →
    cores_loop fuel cpu socket_id 1 (Z.of_nat n) 0 count buf
    = match cores_of_socket socket_id (drop n (cores cpu)) with
      | [] => Some (Fallthrough, 0, count, buf)
      | x :: _ => Some (Return PQOS_RETVAL_OK, 0, 1, <[0%nat := x]> buf)
      end.
Proof.
  intros [Hlen Hnum] Hbuf k.
  induction k as [|k IH]; intros n fuel Hn Hfuel;
    (destruct fuel as [|fuel]; [lia|]); rewrite cores_loop_S;
    (destruct (Z.ltb_spec (Z.of_nat n) (num_cores cpu)) as [Hlt|Hge];
     [|by rewrite drop_ge by lia]);
    [lia|].
  destruct (lookup_lt_is_Some_2 (cores cpu) n) as [ci Hci]; [lia|].
  rewrite (Nat2Z.id n), Hci, (drop_S _ _ _ Hci), cores_of_socket_cons.
  cbn [mbind option_bind].
  destruct (Z.eqb_spec (socket ci) socket_id) as [Hsock|Hsock].
  - change (1 =? 1) with true. cbv iota.
    change (store buf 0 (lcore ci)) with (store buf (Z.of_nat 0) (lcore ci)).
    by rewrite store_of_nat.
  - rewrite uinc_of_nat by lia. apply (IH (S n) fuel); lia.
Qed.

(** Unless the loop of [pqos_cpu_get_cores] is left by its
    [return PQOS_RETVAL_OK], it does not write [*count]. *)
Lemma cores_loop_count_frame (cpu : pqos_cpuinfo) (socket_id max_count : Z)
    (count : Z) (fuel : nat) :
  ∀ (i cnt : Z) (buf : list Z) exit cnt' count' buf',
    cores_loop fuel cpu socket_id max_count i cnt count buf
    = Some (exit, cnt', count', buf') →
    exit = Return PQOS_RETVAL_OK ∨ count' = count.
Proof.
  induction fuel as [|fuel IH]; intros i cnt buf exit cnt' count' buf' Hloop;
    [discriminate|].
  rewrite cores_loop_S in Hloop.
  repeat (case_match; simplify_option_eq); eauto.
Qed.

End cores_loops.

Section cores_claims.
Import Sockets.

(** The head of the cores of a socket is the first core of the snapshot
    that is on the socket. *)
Lemma cores_of_socket_head (socket_id : Z) (l : list pqos_coreinfo)
    (x : Z) (more : list Z) :
  cores_of_socket socket_id l = x :: more →
  ∃ (i : nat) (c : pqos_coreinfo),
    l !! i = Some c ∧ socket c = socket_id ∧ lcore c = x
    ∧ ∀ (j : nat) (c' : pqos_coreinfo),
        (j < i)%nat → l !! j = Some c' → socket c' ≠ socket_id.
Proof.
  induction l as [|c l IH]; [discriminate|].
  rewrite cores_of_socket_cons.
  destruct (Z.eqb_spec (socket c) socket_id) as [Hsock|Hsock]; intros Hhead.
  - exists 0%nat, c. split; [done|]. split; [done|]. split; [congruence|].
    intros; lia.
  - destruct (IH Hhead) as (i & c1 & Hi & Hs & Hx & Hbefore).
    exists (S i), c1. split; [done|]. split; [done|]. split; [done|].
    intros [|j] c' Hj Hc'.
    + simpl in Hc'. congruence.
    + apply (Hbefore j); [lia|done].
Qed.

(** C5: with [max_count = 1] and at least one core on the socket,
    [pqos_cpu_get_cores] answers [PQOS_RETVAL_OK], stores in [cores[0]] the
    logical id of the first core of the snapshot that is on the socket, and
    reports the count 1, however many more cores are on the socket. *)
Theorem C5_one_core_fast_path
    (cpu : pqos_cpuinfo) (socket_id old : Z) (buf : list Z)
    (x : Z) (more : list Z) :
  cpu_wf cpu → (0 < length buf)%nat →
  cores_of_socket socket_id (cores cpu) = x :: more →
  pqos_cpu_get_cores (Ptr cpu) socket_id 1 (Ptr old) (Ptr buf)
  = Some (PQOS_RETVAL_OK, Ptr 1, Ptr (<[0%nat := x]> buf))
  ∧ ∃ (i : nat) (c : pqos_coreinfo),
      cores cpu !! i = Some c ∧ socket c = socket_id ∧ lcore c = x
      ∧ ∀ (j : nat) (c' : pqos_coreinfo),
          (j < i)%nat → cores cpu !! j = Some c' → socket c' ≠ socket_id.
Proof.
  intros Hwf Hbuf Hfound. split; [|by eapply cores_of_socket_head].
  unfold pqos_cpu_get_cores. change (1 =? 0) with false. cbv iota.
  pose proof (cores_loop_first cpu socket_id old buf Hwf Hbuf
                (length (cores cpu)) 0 (S (Z.to_nat (num_cores cpu))))
    as Hloop.
  change (Z.of_nat 0) with 0 in Hloop. rewrite drop_0, Hfound in Hloop.
  rewrite Hloop by (destruct Hwf; lia). reflexivity.
Qed.

Lemma C5_witness :
  pqos_cpu_get_cores (Ptr scenario4) 1 1 (Ptr 77) (Ptr [9])
  = Some (PQOS_RETVAL_OK, Ptr 1, Ptr [2]).
Proof.
  apply (C5_one_core_fast_path scenario4 1 77 [9] 2 [3]).
  - solve_wf.
  - simpl. lia.
  - reflexivity.
Defined.

(** C6: with [max_count > 1], [pqos_cpu_get_cores] answers
    [PQOS_RETVAL_ERROR] when no core is on the socket and when more cores
    than [max_count] are on it; otherwise it answers [PQOS_RETVAL_OK],
    stores the logical ids of the cores of the socket at the front of the
    buffer, in the order of the snapshot, and reports their number. *)
Theorem C6_cores_of_socket
    (cpu : pqos_cpuinfo) (socket_id max_count old : Z) (buf : list Z) :
  cpu_wf cpu → 1 < max_count <= UINT_MAX →
  max_count <= Z.of_nat (length buf) →
  let found := cores_of_socket socket_id (cores cpu) in
  (found = [] →
   pqos_cpu_get_cores (Ptr cpu) socket_id max_count (Ptr old) (Ptr buf)
   = Some (PQOS_RETVAL_ERROR, Ptr old, Ptr buf))
  ∧ (max_count < Z.of_nat (length found) →
     ∃ buf',
       pqos_cpu_get_cores (Ptr cpu) socket_id max_count (Ptr old) (Ptr buf)
       = Some (PQOS_RETVAL_ERROR, Ptr old, Ptr buf'))
  ∧ (found ≠ [] → Z.of_nat (length found) <= max_count →
     pqos_cpu_get_cores (Ptr cpu) socket_id max_count (Ptr old) (Ptr buf)
     = Some (PQOS_RETVAL_OK, Ptr (Z.of_nat (length found)),
             Ptr (found ++ drop (length found) buf))).
Proof.
  intros Hwf Hmax Hroom found. unfold pqos_cpu_get_cores.
  destruct (Z.eqb_spec max_count 0); [lia|].
  pose proof (cores_loop_many cpu socket_id max_count old Hwf Hmax
                (length (cores cpu)) 0 (S (Z.to_nat (num_cores cpu))) [] buf)
    as Hloop.
  destruct Hwf as [Hlen Hnum]. cbn [length app] in Hloop.
  change (Z.of_nat 0) with 0 in Hloop. rewrite drop_0 in Hloop.
  specialize (Hloop ltac:(lia) ltac:(lia) ltac:(lia) ltac:(lia)).
  cbv zeta in Hloop. fold found in Hloop.
  split; [|split].
  - intros Hnone. rewrite Hnone in Hloop. cbn [length drop] in Hloop.
    rewrite decide_True in Hloop by lia. by rewrite Hloop.
  - intros Hover. rewrite decide_False in Hloop by lia.
    destruct Hloop as (cnt & buf' & ->). simpl. by eauto.
  - intros Hsome Hfit. rewrite decide_True in Hloop by done.
    rewrite Hloop. cbn [mbind option_bind].
    destruct (Z.eqb_spec (Z.of_nat (length found)) 0); [|done].
    by destruct found.
Qed.

Lemma C6_witness :
  pqos_cpu_get_cores (Ptr scenario4) 7 2 (Ptr 77) (Ptr [9; 9])
  = Some (PQOS_RETVAL_ERROR, Ptr 77, Ptr [9; 9])
  ∧ (∃ buf',
       pqos_cpu_get_cores (Ptr scenario4) 1 2 (Ptr 77) (Ptr [9; 9])
       = Some (PQOS_RETVAL_OK, Ptr 2, Ptr buf'))
  ∧ (∃ buf',
       pqos_cpu_get_cores (Ptr crowded_socket) 1 2 (Ptr 77) (Ptr [9; 9])
       = Some (PQOS_RETVAL_ERROR, Ptr 77, Ptr buf')).
Proof.
  split; [|split].
  - apply (C6_cores_of_socket scenario4 7 2 77 [9; 9]);
      [solve_wf | split; by vm_compute | by vm_compute | reflexivity].
  - eexists.
    apply (C6_cores_of_socket scenario4 1 2 77 [9; 9]);
      [solve_wf | split; by vm_compute | by vm_compute | discriminate
      | by vm_compute].
  - apply (C6_cores_of_socket crowded_socket 1 2 77 [9; 9]);
      [solve_wf | split; by vm_compute | by vm_compute | by vm_compute].
Defined.

(** C9: when [pqos_cpu_get_sockets] or [pqos_cpu_get_cores] answers
    [PQOS_RETVAL_ERROR], the code of an overflow, [*count] holds what it held
    before the call. *)
Theorem C9_count_unwritten_on_error
    (cpu : ptr pqos_cpuinfo) (socket_id max_count : Z)
    (count count' : ptr Z) (buf buf' : ptr (list Z)) :
  (pqos_cpu_get_sockets cpu max_count count buf
   = Some (PQOS_RETVAL_ERROR, count', buf') → count' = count)
  ∧ (pqos_cpu_get_cores cpu socket_id max_count count buf
     = Some (PQOS_RETVAL_ERROR, count', buf') → count' = count).
Proof.
  split; intros Hcall.
  - unfold pqos_cpu_get_sockets in Hcall.
    repeat (case_match; simplify_option_eq); done.
  - unfold pqos_cpu_get_cores in Hcall.
    destruct cpu as [|c]; [by simplify_eq|].
    destruct count as [|old]; [by simplify_eq|].
    destruct buf as [|out]; [by simplify_eq|].
    destruct (max_count =? 0); [by simplify_eq|].
    destruct (cores_loop _ _ _ _ _ _ _ _) as [[[[exit cnt] new] out']|] eqn:Hloop;
      [|discriminate].
    apply cores_loop_count_frame in Hloop as [-> | ->].
    + simpl in Hcall. by simplify_eq.
    + simpl in Hcall. repeat (case_match; simplify_eq); done.
Qed.

Lemma C9_witness :
  pqos_cpu_get_sockets (Ptr scenario4) 1 (Ptr 77) (Ptr [9])
  = Some (PQOS_RETVAL_ERROR, Ptr 77, Ptr [0])
  ∧ pqos_cpu_get_cores (Ptr crowded_socket) 1 2 (Ptr 77) (Ptr [9; 9])
    = Some (PQOS_RETVAL_ERROR, Ptr 77, Ptr [2; 3])
  ∧ Ptr 77 = Ptr 77.
Proof.
  assert (pqos_cpu_get_sockets (Ptr scenario4) 1 (Ptr 77) (Ptr [9])
          = Some (PQOS_RETVAL_ERROR, Ptr 77, Ptr [0])) as Hsockets
    by (by vm_compute).
  assert (pqos_cpu_get_cores (Ptr crowded_socket) 1 2 (Ptr 77) (Ptr [9; 9])
          = Some (PQOS_RETVAL_ERROR, Ptr 77, Ptr [2; 3])) as Hcores
    by (by vm_compute).
  split; [exact Hsockets|]. split; [exact Hcores|].
  destruct (C9_count_unwritten_on_error (Ptr scenario4) 1 1 (Ptr 77) (Ptr 77)
              (Ptr [9]) (Ptr [0])) as [Hframe _].
  destruct (C9_count_unwritten_on_error (Ptr crowded_socket) 1 2 (Ptr 77)
              (Ptr 77) (Ptr [9; 9]) (Ptr [2; 3])) as [_ Hframe'].
  exact (eq_trans (Hframe Hsockets) (Hframe' Hcores)).
Defined.

End cores_claims.

(** ** The cores of a topology object *)

Section lister.
Import Lister.

Lemma collect_loop_S (fuel : nat) (cpu : pqos_cpuinfo) (type id : Z)
    (i num : Z) (core_list : list Z) :
  collect_loop (S fuel) cpu type id i num core_list
  = if i <? num_cores cpu then
      ci ← cores cpu !! Z.to_nat i;
      if in_topology_obj type id ci then
        core_list' ← store core_list num (lcore ci);
        collect_loop fuel cpu type id (uinc i) (uinc num) core_list'
      else collect_loop fuel cpu type id (uinc i) num core_list
    else Some (num, core_list).
Proof. reflexivity. Qed.

Lemma in_topology_obj_key (type id : Z) (c : pqos_coreinfo) :
  valid_topo_obj type →
  in_topology_obj type id c = bool_decide (topo_key type c = id).
Proof.
  intros [-> | [-> | ->]]; unfold in_topology_obj, topo_key; simpl;
    rewrite ?orb_false_r;
    match goal with |- (?x =? ?y) = _ => destruct (Z.eqb_spec x y) end;
    symmetry;
    first [apply bool_decide_eq_true; congruence
          | apply bool_decide_eq_false; congruence].
Qed.

Lemma cores_of_obj_cons (type id : Z) (c : pqos_coreinfo)
    (l : list pqos_coreinfo) :
  cores_of_obj type id (c :: l)
  = if bool_decide (topo_key type c = id) then lcore c :: cores_of_obj type id l
    else cores_of_obj type id l.
Proof.
  unfold cores_of_obj. rewrite filter_cons.
  case_bool_decide.
  - by rewrite decide_True.
  - by rewrite decide_False.
Qed.

(** The loop of [__get_cores_per_topology_obj] from core [n] on, with the
    ids [pre] in the block: the block is never written past [num_cores]
    elements, since no more ids are in it than cores were gone through. *)
Lemma collect_loop_spec (cpu : pqos_cpuinfo) (type id : Z) :
  cpu_wf cpu → valid_topo_obj type →
  ∀ (k n fuel : nat) (pre rest : list Z),
    (length (cores cpu) ≤ n + k)%nat → (k < fuel)%nat →
    (length pre ≤ n)%nat →
    length (pre ++ rest) = length (cores cpu) →
    let found := cores_of_obj type id (drop n (cores cpu)) in
    collect_loop fuel cpu type id (Z.of_nat n) (Z.of_nat (length pre))
      (pre ++ rest)
    = Some (Z.of_nat (length (pre ++ found)),
            (pre ++ found) ++ drop (length found) rest).
Proof.
  intros [Hlen Hnum] Hty k.
  induction k as [|k IH]; intros n fuel pre rest Hn Hfuel Hpre Hblock;
    (destruct fuel as [|fuel]; [lia|]); rewrite collect_loop_S;
    (destruct (Z.ltb_spec (Z.of_nat n) (num_cores cpu)) as [Hlt|Hge];
     [|rewrite drop_ge by lia; change (cores_of_obj type id []) with (@nil Z);
       cbv zeta; by rewrite app_nil_r, drop_0]);
    [lia|].
  destruct (lookup_lt_is_Some_2 (cores cpu) n) as [ci Hci]; [lia|].
  rewrite (Nat2Z.id n), Hci, (drop_S _ _ _ Hci), cores_of_obj_cons.
  cbn [mbind option_bind]. rewrite (in_topology_obj_key type id ci Hty).
  cbv zeta. case_bool_decide as Hkey.
  - rewrite length_app in Hblock.
    rewrite store_of_nat by (rewrite length_app; lia).
    cbn [mbind option_bind].
    rewrite uinc_of_nat, uinc_of_nat by lia.
    rewrite insert_after_prefix by (intros ->; simpl in *; lia).
    specialize (IH (S n) fuel (pre ++ [lcore ci]) (drop 1 rest)).
    rewrite !length_app, length_drop in IH. cbn [length] in IH.
    replace (S (length pre)) with (length pre + 1)%nat by lia.
    specialize (IH ltac:(lia) ltac:(lia) ltac:(lia) ltac:(lia)).
    cbv zeta in IH. rewrite IH, drop_drop, <- (app_assoc pre [lcore ci]).
    rewrite !length_app. cbn [length app]. do 3 f_equal; lia.
  - rewrite uinc_of_nat by lia. apply (IH (S n) fuel pre rest); lia.
Qed.

(** C4: on a snapshot and for a grouping key that is socket, L2 cluster or
    L3 cluster, when the allocation succeeds, [__get_cores_per_topology_obj]
    answers a block that starts with the logical ids of the cores whose key
    is [id], in the order of the snapshot, and stores their number in
    [*count]; when no core has the key [id] it answers [NULL] and leaves
    [*count] alone. [pqos_cpu_get_cores_l3id] is the case of the L3 key. *)
Theorem C4_cores_of_topology_obj
    (malloc : allocator) (cpu : pqos_cpuinfo) (type id old : Z)
    (block : list Z) :
  cpu_wf cpu → valid_topo_obj type →
  allocator_sound malloc → malloc (num_cores cpu) = Ptr block →
  let found := cores_of_obj type id (cores cpu) in
  __get_cores_per_topology_obj malloc (Ptr cpu) type id (Ptr old)
  = (if decide (found = []) then Some (NULL, Ptr old)
     else Some (Ptr (found ++ drop (length found) block),
                Ptr (Z.of_nat (length found))))
  ∧ (type = TOPO_OBJ_L3_CLUSTER →
     pqos_cpu_get_cores_l3id malloc (Ptr cpu) id (Ptr old)
     = __get_cores_per_topology_obj malloc (Ptr cpu) type id (Ptr old)).
Proof.
  intros Hwf Hty Hsound Hblock found.
  split; [|by intros ->].
  unfold __get_cores_per_topology_obj. rewrite Hblock.
  pose proof (collect_loop_spec cpu type id Hwf Hty (length (cores cpu)) 0
                (S (Z.to_nat (num_cores cpu))) [] block) as Hloop.
  destruct Hwf as [Hlen Hnum]. apply Hsound in Hblock; [|lia].
  cbn [length app] in Hloop. change (Z.of_nat 0) with 0 in Hloop.
  rewrite drop_0 in Hloop.
  rewrite Hloop by lia. fold found. cbn [mbind option_bind].
  destruct (Z.eqb_spec (Z.of_nat (length found)) 0) as [Hzero|Hpos].
  - rewrite decide_True; [done|]. apply nil_length_inv. lia.
  - rewrite decide_False; [done|]. by intros ->.
Qed.

Lemma C4_witness :
  pqos_cpu_get_cores_l3id calloc_like (Ptr scenario4) 1 (Ptr 77)
  = Some (Ptr [2; 3; 0; 0], Ptr 2)
  ∧ pqos_cpu_get_cores_l3id calloc_like (Ptr scenario4) 5 (Ptr 77)
    = Some (NULL, Ptr 77).
Proof.
  assert (cpu_wf scenario4) as Hwf by solve_wf.
  assert (valid_topo_obj TOPO_OBJ_L3_CLUSTER) as Hty
    by (right; right; reflexivity).
  assert (allocator_sound calloc_like) as Hsound.
  { intros n block Hn [= <-]. rewrite length_replicate. lia. }
  split.
  - destruct (C4_cores_of_topology_obj calloc_like scenario4
                TOPO_OBJ_L3_CLUSTER 1 77 [0; 0; 0; 0] Hwf Hty Hsound eq_refl)
      as [Hcall Hl3].
    rewrite (Hl3 eq_refl). exact Hcall.
  - destruct (C4_cores_of_topology_obj calloc_like scenario4
                TOPO_OBJ_L3_CLUSTER 5 77 [0; 0; 0; 0] Hwf Hty Hsound eq_refl)
      as [Hcall Hl3].
    rewrite (Hl3 eq_refl). exact Hcall.
Defined.

End lister.

(** ** Capabilities and monitoring events *)

Section caps.
Import Caps.

Lemma type_loop_S (fuel : nat) (cap : pqos_cap) (type i : Z) (ret : retval)
    (item : ptr cap_ref) :
  type_loop (S fuel) cap type i ret item
  = if i <? num_cap cap then
      ci ← capabilities cap !! Z.to_nat i;
      if negb (cap_type ci =? type) then
        type_loop fuel cap type (uinc i) ret item
      else Some (PQOS_RETVAL_OK, Ptr (CapRef i))
    else Some (ret, item).
Proof. reflexivity. Qed.

Lemma event_loop_S (fuel : nat) (mon : pqos_cap_mon) (k event i : Z)
    (ret : retval) (p : ptr event_ref) :
  event_loop (S fuel) mon k event i ret p
  = if i <? num_events mon then
      ei ← events mon !! Z.to_nat i;
      if event_type ei =? event then Some (PQOS_RETVAL_OK, Ptr (EventRef k i))
      else event_loop fuel mon k event (uinc i) ret p
    else Some (ret, p).
Proof. reflexivity. Qed.

(** The first element from position [n] on that satisfies [P], with its
    position in the whole list. *)
Lemma list_find_drop_S {A : Type} (P : A → Prop) `{∀ x, Decision (P x)}
    (l : list A) (n : nat) (x : A) :
  l !! n = Some x →
  list_find P (drop n l)
  = if decide (P x) then Some (0%nat, x)
    else prod_map S id <$> list_find P (drop (S n) l).
Proof.
  intros Hx. by rewrite (drop_S _ _ _ Hx).
Qed.

Lemma type_loop_spec (cap : pqos_cap) (type : Z) (ret : retval)
    (item : ptr cap_ref) :
  cap_wf cap →
  ∀ (k n fuel : nat),
    (length (capabilities cap) ≤ n + k)%nat → (k < fuel)%nat →
    type_loop fuel cap type (Z.of_nat n) ret item
    = match list_find (λ c, cap_type c = type) (drop n (capabilities cap)) with
      | Some (i, _) => Some (PQOS_RETVAL_OK, Ptr (CapRef (Z.of_nat (n + i))))
      | None => Some (ret, item)
      end.
Proof.
  intros [Hlen Hnum] k.
  induction k as [|k IH]; intros n fuel Hn Hfuel;
    (destruct fuel as [|fuel]; [lia|]); rewrite type_loop_S;
    (destruct (Z.ltb_spec (Z.of_nat n) (num_cap cap)) as [Hlt|Hge];
     [|by rewrite drop_ge by lia]);
    [lia|].
  destruct (lookup_lt_is_Some_2 (capabilities cap) n) as [ci Hci]; [lia|].
  rewrite (Nat2Z.id n), Hci, (list_find_drop_S _ _ _ _ Hci).
  cbn [mbind option_bind].
  destruct (Z.eqb_spec (cap_type ci) type) as [Htype|Htype]; cbn [negb].
  - rewrite decide_True by done. by rewrite Nat.add_0_r.
  - rewrite decide_False by done. rewrite uinc_of_nat by lia.
    rewrite (IH (S n) fuel) by lia.
    destruct (list_find _ (drop (S n) _)) as [[i c]|]; [|done].
    simpl. do 4 f_equal. lia.
Qed.

Lemma event_loop_spec (mon : pqos_cap_mon) (c event : Z) (ret : retval)
    (p : ptr event_ref) :
  mon_wf mon →
  ∀ (k n fuel : nat),
    (length (events mon) ≤ n + k)%nat → (k < fuel)%nat →
    event_loop fuel mon c event (Z.of_nat n) ret p
    = match list_find (λ e, event_type e = event) (drop n (events mon)) with
      | Some (i, _) => Some (PQOS_RETVAL_OK, Ptr (EventRef c (Z.of_nat (n + i))))
      | None => Some (ret, p)
      end.
Proof.
  intros [Hlen Hnum] k.
  induction k as [|k IH]; intros n fuel Hn Hfuel;
    (destruct fuel as [|fuel]; [lia|]); rewrite event_loop_S;
    (destruct (Z.ltb_spec (Z.of_nat n) (num_events mon)) as [Hlt|Hge];
     [|by rewrite drop_ge by lia]);
    [lia|].
  destruct (lookup_lt_is_Some_2 (events mon) n) as [ei Hei]; [lia|].
  rewrite (Nat2Z.id n), Hei, (list_find_drop_S _ _ _ _ Hei).
  cbn [mbind option_bind].
  destruct (Z.eqb_spec (event_type ei) event) as [Htype|Htype].
  - rewrite decide_True by done. by rewrite Nat.add_0_r.
  - rewrite decide_False by done. rewrite uinc_of_nat by lia.
    rewrite (IH (S n) fuel) by lia.
    destruct (list_find _ (drop (S n) _)) as [[i e]|]; [|done].
    simpl. do 4 f_equal. lia.
Qed.

(** What [pqos_cap_get_type] does on a snapshot and a place for the
    result. *)
Lemma pqos_cap_get_type_spec (cap : pqos_cap) (type : Z) (item : ptr cap_ref) :
  cap_wf cap →
  pqos_cap_get_type (Ptr cap) type (Ptr item)
  = if decide (PQOS_CAP_TYPE_NUMOF <= type) then
      Some (PQOS_RETVAL_PARAM, Ptr item)
    else
      match list_find (λ c, cap_type c = type) (capabilities cap) with
      | Some (i, _) => Some (PQOS_RETVAL_OK, Ptr (Ptr (CapRef (Z.of_nat i))))
      | None => Some (PQOS_RETVAL_RESOURCE, Ptr item)
      end.
Proof.
  intros Hwf. unfold pqos_cap_get_type.
  destruct (Z.leb_spec PQOS_CAP_TYPE_NUMOF type).
  { by rewrite decide_True. }
  rewrite decide_False by lia.
  pose proof (type_loop_spec cap type PQOS_RETVAL_RESOURCE item Hwf
                (length (capabilities cap)) 0
                (S (Z.to_nat (num_cap cap)))) as Hloop.
  change (Z.of_nat 0) with 0 in Hloop. rewrite drop_0 in Hloop.
  rewrite Hloop by (destruct Hwf; lia).
  by destruct (list_find _ _) as [[i c]|].
Qed.

Lemma first_at_list_find {A : Type} (P : A → Prop) `{∀ x, Decision (P x)}
    (l : list A) (i : nat) (x : A) :
  first_at P l i x → list_find P l = Some (i, x).
Proof. intros Hfirst. by apply list_find_Some. Qed.

(** What [pqos_cap_get_event] does on a snapshot and a place for the
    result. *)
Lemma pqos_cap_get_event_spec (cap : pqos_cap) (event : Z)
    (p : ptr event_ref) :
  cap_wf cap → cap_mon_wf cap →
  pqos_cap_get_event (Ptr cap) event (Ptr p)
  = match list_find (λ c, cap_type c = PQOS_CAP_TYPE_MON) (capabilities cap) with
    | None => Some (PQOS_RETVAL_RESOURCE, Ptr p)
    | Some (i, c) =>
        mon ← u_mon c;
        match list_find (λ e, event_type e = event) (events mon) with
        | Some (k, _) =>
            Some (PQOS_RETVAL_OK,
                  Ptr (Ptr (EventRef (Z.of_nat i) (Z.of_nat k))))
        | None => Some (PQOS_RETVAL_ERROR, Ptr p)
        end
    end.
Proof.
  intros Hwf Hmon. unfold pqos_cap_get_event.
  rewrite (pqos_cap_get_type_spec cap PQOS_CAP_TYPE_MON NULL Hwf).
  rewrite decide_False by (by vm_compute).
  destruct (list_find _ _) as [[i c]|] eqn:Hfind; cbn [mbind option_bind].
  - rewrite decide_False by (intros Hne; by apply Hne).
    apply list_find_Some in Hfind as (Hi & Htype & _).
    rewrite Nat2Z.id, Hi. cbn [mbind option_bind].
    destruct c as [mon|l3ca|l2ca]; try discriminate Htype.
    cbn [u_mon mbind option_bind].
    assert (mon_wf mon) as Hmwf
      by (apply Hmon, list_elem_of_lookup; by exists i).
    pose proof (event_loop_spec mon (Z.of_nat i) event PQOS_RETVAL_ERROR p
                  Hmwf (length (events mon)) 0
                  (S (Z.to_nat (num_events mon)))) as Hloop.
    change (Z.of_nat 0) with 0 in Hloop. rewrite drop_0 in Hloop.
    rewrite Hloop by (destruct Hmwf; lia).
    by destruct (list_find _ _) as [[k e]|].
  - by rewrite decide_True by discriminate.
Qed.

(** C7: for a tag of the enumeration, that is a tag from 0 up to but not
    including [PQOS_CAP_TYPE_NUMOF], [pqos_cap_get_type] answers
    [PQOS_RETVAL_OK] and a reference to the first capability of the
    snapshot, in the order of the array, whose type is the tag; when no
    capability has the tag it answers [PQOS_RETVAL_RESOURCE], which is
    neither [PQOS_RETVAL_ERROR] nor [PQOS_RETVAL_PARAM], and leaves
    [*cap_item] alone. A tag outside the enumeration, which for a value of
    the unsigned enumeration is a tag from [PQOS_CAP_TYPE_NUMOF] on, a null
    snapshot and a null [cap_item] are [PQOS_RETVAL_PARAM]. *)
Theorem C7_capability_by_type
    (cap : pqos_cap) (type : Z) (item : ptr cap_ref) :
  cap_wf cap →
  (0 <= type < PQOS_CAP_TYPE_NUMOF →
   (∀ (i : nat) (c : pqos_capability),
      first_at (λ c, cap_type c = type) (capabilities cap) i c →
      pqos_cap_get_type (Ptr cap) type (Ptr item)
      = Some (PQOS_RETVAL_OK, Ptr (Ptr (CapRef (Z.of_nat i))))
      ∧ deref_cap cap (CapRef (Z.of_nat i)) = Some c)
   ∧ ((∀ c, c ∈ capabilities cap → cap_type c ≠ type) →
      pqos_cap_get_type (Ptr cap) type (Ptr item)
      = Some (PQOS_RETVAL_RESOURCE, Ptr item)
      ∧ PQOS_RETVAL_RESOURCE ≠ PQOS_RETVAL_ERROR
      ∧ PQOS_RETVAL_RESOURCE ≠ PQOS_RETVAL_PARAM))
  ∧ (PQOS_CAP_TYPE_NUMOF <= type →
     pqos_cap_get_type (Ptr cap) type (Ptr item)
     = Some (PQOS_RETVAL_PARAM, Ptr item))
  ∧ pqos_cap_get_type NULL type (Ptr item) = Some (PQOS_RETVAL_PARAM, Ptr item)
  ∧ pqos_cap_get_type (Ptr cap) type NULL = Some (PQOS_RETVAL_PARAM, NULL).
Proof.
  intros Hwf.
  pose proof (pqos_cap_get_type_spec cap type item Hwf) as Hspec.
  split; [|split; [|split; reflexivity]].
  - intros Hin. rewrite decide_False in Hspec by lia. split.
    + intros i c Hfirst. pose proof Hfirst as (Hi & _).
      apply (first_at_list_find (λ c, cap_type c = type)) in Hfirst. rewrite Hfirst in Hspec.
      split; [exact Hspec|]. unfold deref_cap. by rewrite Nat2Z.id.
    + intros Hnone. split; [|split; discriminate].
      assert (list_find (λ c, cap_type c = type) (capabilities cap) = None)
        as Hfind by (apply list_find_None, Forall_forall; exact Hnone).
      by rewrite Hfind in Hspec.
  - intros Hout. by rewrite decide_True in Hspec.
Qed.

Lemma C7_witness :
  pqos_cap_get_type (Ptr l3_and_mon) PQOS_CAP_TYPE_MON (Ptr NULL)
  = Some (PQOS_RETVAL_OK, Ptr (Ptr (CapRef 1)))
  ∧ pqos_cap_get_type (Ptr l3_and_mon) PQOS_CAP_TYPE_L2CA (Ptr NULL)
    = Some (PQOS_RETVAL_RESOURCE, Ptr NULL)
  ∧ pqos_cap_get_type (Ptr l3_and_mon) 7 (Ptr NULL)
    = Some (PQOS_RETVAL_PARAM, Ptr NULL).
Proof.
  assert (cap_wf l3_and_mon) as Hwf by solve_wf.
  split; [|split].
  - destruct (C7_capability_by_type l3_and_mon PQOS_CAP_TYPE_MON NULL Hwf)
      as [Hin _].
    destruct Hin as [Hfound _]; [split; by vm_compute|].
    apply (Hfound 1%nat (Cap_mon
             {| num_events := 2;
                events :=
                  [{| event_type := 1; max_rmid := 8; scale_factor := 64 |};
                   {| event_type := 2; max_rmid := 8; scale_factor := 64 |}] |})).
    split; [reflexivity|]. split; [reflexivity|].
    intros [|[|j]] y Hy Hj; [|lia..]. injection Hy as <-. discriminate.
  - destruct (C7_capability_by_type l3_and_mon PQOS_CAP_TYPE_L2CA NULL Hwf)
      as [Hin _].
    destruct Hin as [_ Hnone]; [split; by vm_compute|].
    apply Hnone. intros c Hc.
    apply elem_of_cons in Hc as [-> | Hc]; [discriminate|].
    apply elem_of_cons in Hc as [-> | Hc]; [discriminate|].
    by apply elem_of_nil in Hc.
  - destruct (C7_capability_by_type l3_and_mon 7 NULL Hwf) as (_ & Hout & _).
    apply Hout. by vm_compute.
Defined.

(** C8: [pqos_cap_get_event] looks the monitoring capability up with
    [pqos_cap_get_type]; a code of that call other than [PQOS_RETVAL_OK] is
    the code of [pqos_cap_get_event], so a snapshot without monitoring
    capability is [PQOS_RETVAL_RESOURCE]. With a monitoring capability, the
    answer is [PQOS_RETVAL_OK] and a reference to the first event of its
    list whose type is the event asked for, and [PQOS_RETVAL_ERROR] when
    the list has no such event. *)
Theorem C8_event_of_monitoring
    (cap : pqos_cap) (event : Z) (p : ptr event_ref) :
  cap_wf cap → cap_mon_wf cap →
  (∀ r item,
     pqos_cap_get_type (Ptr cap) PQOS_CAP_TYPE_MON (Ptr NULL) = Some (r, item) →
     r ≠ PQOS_RETVAL_OK →
     pqos_cap_get_event (Ptr cap) event (Ptr p) = Some (r, Ptr p))
  ∧ ((∀ c, c ∈ capabilities cap → cap_type c ≠ PQOS_CAP_TYPE_MON) →
     pqos_cap_get_type (Ptr cap) PQOS_CAP_TYPE_MON (Ptr NULL)
     = Some (PQOS_RETVAL_RESOURCE, Ptr NULL)
     ∧ pqos_cap_get_event (Ptr cap) event (Ptr p)
       = Some (PQOS_RETVAL_RESOURCE, Ptr p))
  ∧ (∀ (i : nat) (mon : pqos_cap_mon),
       first_at (λ c, cap_type c = PQOS_CAP_TYPE_MON) (capabilities cap) i
         (Cap_mon mon) →
       (∀ (k : nat) (e : pqos_monitor),
          first_at (λ e, event_type e = event) (events mon) k e →
          pqos_cap_get_event (Ptr cap) event (Ptr p)
          = Some (PQOS_RETVAL_OK,
                  Ptr (Ptr (EventRef (Z.of_nat i) (Z.of_nat k))))
          ∧ deref_event cap (EventRef (Z.of_nat i) (Z.of_nat k)) = Some e)
       ∧ ((∀ e, e ∈ events mon → event_type e ≠ event) →
          pqos_cap_get_event (Ptr cap) event (Ptr p)
          = Some (PQOS_RETVAL_ERROR, Ptr p))).
Proof.
  intros Hwf Hmon.
  pose proof (pqos_cap_get_event_spec cap event p Hwf Hmon) as Hspec.
  split; [|split].
  - intros r item Htype Hr. unfold pqos_cap_get_event. rewrite Htype.
    cbn [mbind option_bind]. by rewrite decide_True.
  - intros Hnone.
    assert (list_find (λ c, cap_type c = PQOS_CAP_TYPE_MON) (capabilities cap)
            = None) as Hfind
      by (apply list_find_None, Forall_forall; exact Hnone).
    rewrite Hfind in Hspec. split; [|exact Hspec].
    rewrite (pqos_cap_get_type_spec cap PQOS_CAP_TYPE_MON NULL Hwf), Hfind.
    by rewrite decide_False by (by vm_compute).
  - intros i mon Hfirst. pose proof Hfirst as (Hi & _).
    apply (first_at_list_find (λ c, cap_type c = PQOS_CAP_TYPE_MON)) in Hfirst. rewrite Hfirst in Hspec.
    cbn [u_mon mbind option_bind] in Hspec. split.
    + intros k e Hevent. pose proof Hevent as (Hk & _).
      apply (first_at_list_find (λ e, event_type e = event)) in Hevent. rewrite Hevent in Hspec.
      split; [exact Hspec|].
      unfold deref_event. rewrite !Nat2Z.id, Hi. cbn [u_mon mbind option_bind].
      exact Hk.
    + intros Hnone.
      assert (list_find (λ e, event_type e = event) (events mon) = None)
        as Hfind by (apply list_find_None, Forall_forall; exact Hnone).
      by rewrite Hfind in Hspec.
Qed.

Lemma C8_witness :
  pqos_cap_get_event (Ptr l3_only) 1 (Ptr NULL)
  = Some (PQOS_RETVAL_RESOURCE, Ptr NULL)
  ∧ pqos_cap_get_event (Ptr l3_and_mon) 4 (Ptr NULL)
    = Some (PQOS_RETVAL_ERROR, Ptr NULL).
Proof.
  split.
  - assert (cap_wf l3_only) as Hwf by solve_wf.
    assert (cap_mon_wf l3_only) as Hmon.
    { intros m Hm. apply elem_of_cons in Hm as [Heq | Hm]; [discriminate Heq|].
      by apply elem_of_nil in Hm. }
    destruct (C8_event_of_monitoring l3_only 1 NULL Hwf Hmon)
      as (Hprop & _ & _).
    apply (Hprop PQOS_RETVAL_RESOURCE (Ptr NULL)); [reflexivity | discriminate].
  - assert (cap_wf l3_and_mon) as Hwf by solve_wf.
    assert (cap_mon_wf l3_and_mon) as Hmon.
    { intros m Hm. apply elem_of_cons in Hm as [Heq | Hm]; [discriminate Heq|].
      apply elem_of_cons in Hm as [Heq | Hm];
        [injection Heq as ->; solve_wf|].
      by apply elem_of_nil in Hm. }
    destruct (C8_event_of_monitoring l3_and_mon 4 NULL Hwf Hmon)
      as (_ & _ & Hscan).
    destruct (Hscan 1%nat
                {| num_events := 2;
                   events :=
                     [{| event_type := 1; max_rmid := 8; scale_factor := 64 |};
                      {| event_type := 2; max_rmid := 8; scale_factor := 64 |}] |})
      as [_ Hnone].
    + split; [reflexivity|]. split; [reflexivity|].
      intros [|[|j]] y Hy Hj; [|lia..]. injection Hy as <-. discriminate.
    + apply Hnone. intros e He.
      apply elem_of_cons in He as [-> | He]; [discriminate|].
      apply elem_of_cons in He as [-> | He]; [discriminate|].
      by apply elem_of_nil in He.
Defined.

End caps.

(** ** Point queries on cores *)

Section core_lookup.
Import CoreLookup.

(** One step of a loop that goes through the cores from index [n] on. *)
Ltac loop_step cpu n Hlen Hnum ci Hci :=
  destruct (Z.ltb_spec (Z.of_nat n) (num_cores cpu)) as [Hlt|Hge];
  [destruct (lookup_lt_is_Some_2 (cores cpu) n) as [ci Hci]; [lia|];
   rewrite (Nat2Z.id n), Hci, (list_find_drop_S _ _ _ _ Hci);
   cbn [mbind option_bind]
  |by rewrite drop_ge by lia].

Lemma check_loop_spec (cpu : pqos_cpuinfo) (lcore_id : Z) :
  cpu_wf cpu →
  ∀ (k n fuel : nat),
    (length (cores cpu) ≤ n + k)%nat → (k < fuel)%nat →
    check_loop fuel cpu lcore_id (Z.of_nat n)
    = match list_find (λ c, lcore c = lcore_id) (drop n (cores cpu)) with
      | Some _ => Some PQOS_RETVAL_OK
      | None => Some PQOS_RETVAL_ERROR
      end.
Proof.
  intros [Hlen Hnum] k.
  induction k as [|k IH]; intros n fuel Hn Hfuel;
    (destruct fuel as [|fuel]; [lia|]);
    change (check_loop (S fuel) cpu lcore_id (Z.of_nat n))
      with (if Z.of_nat n <? num_cores cpu then
              ci ← cores cpu !! Z.to_nat (Z.of_nat n);
              if lcore ci =? lcore_id then Some PQOS_RETVAL_OK
              else check_loop fuel cpu lcore_id (uinc (Z.of_nat n))
            else Some PQOS_RETVAL_ERROR);
    loop_step cpu n Hlen Hnum ci Hci; [lia|].
  destruct (Z.eqb_spec (lcore ci) lcore_id).
  - by rewrite decide_True.
  - rewrite decide_False by done. rewrite uinc_of_nat by lia.
    rewrite (IH (S n) fuel) by lia.
    by destruct (list_find _ (drop (S n) _)) as [[i c]|].
Qed.

Lemma socketid_loop_spec (cpu : pqos_cpuinfo) (lcore_id old : Z) :
  cpu_wf cpu →
  ∀ (k n fuel : nat),
    (length (cores cpu) ≤ n + k)%nat → (k < fuel)%nat →
    socketid_loop fuel cpu lcore_id (Z.of_nat n) old
    = match list_find (λ c, lcore c = lcore_id) (drop n (cores cpu)) with
      | Some (_, c) => Some (PQOS_RETVAL_OK, socket c)
      | None => Some (PQOS_RETVAL_ERROR, old)
      end.
Proof.
  intros [Hlen Hnum] k.
  induction k as [|k IH]; intros n fuel Hn Hfuel;
    (destruct fuel as [|fuel]; [lia|]);
    change (socketid_loop (S fuel) cpu lcore_id (Z.of_nat n) old)
      with (if Z.of_nat n <? num_cores cpu then
              ci ← cores cpu !! Z.to_nat (Z.of_nat n);
              if lcore ci =? lcore_id then Some (PQOS_RETVAL_OK, socket ci)
              else socketid_loop fuel cpu lcore_id (uinc (Z.of_nat n)) old
            else Some (PQOS_RETVAL_ERROR, old));
    loop_step cpu n Hlen Hnum ci Hci; [lia|].
  destruct (Z.eqb_spec (lcore ci) lcore_id).
  - by rewrite decide_True.
  - rewrite decide_False by done. rewrite uinc_of_nat by lia.
    rewrite (IH (S n) fuel) by lia.
    by destruct (list_find _ (drop (S n) _)) as [[i c]|].
Qed.

Lemma clusterid_loop_spec (cpu : pqos_cpuinfo) (lcore_id old : Z) :
  cpu_wf cpu →
  ∀ (k n fuel : nat),
    (length (cores cpu) ≤ n + k)%nat → (k < fuel)%nat →
    clusterid_loop fuel cpu lcore_id (Z.of_nat n) old
    = match list_find (λ c, lcore c = lcore_id) (drop n (cores cpu)) with
      | Some (_, c) => Some (PQOS_RETVAL_OK, l3_id c)
      | None => Some (PQOS_RETVAL_ERROR, old)
      end.
Proof.
  intros [Hlen Hnum] k.
  induction k as [|k IH]; intros n fuel Hn Hfuel;
    (destruct fuel as [|fuel]; [lia|]);
    change (clusterid_loop (S fuel) cpu lcore_id (Z.of_nat n) old)
      with (if Z.of_nat n <? num_cores cpu then
              ci ← cores cpu !! Z.to_nat (Z.of_nat n);
              if lcore ci =? lcore_id then Some (PQOS_RETVAL_OK, l3_id ci)
              else clusterid_loop fuel cpu lcore_id (uinc (Z.of_nat n)) old
            else Some (PQOS_RETVAL_ERROR, old));
    loop_step cpu n Hlen Hnum ci Hci; [lia|].
  destruct (Z.eqb_spec (lcore ci) lcore_id).
  - by rewrite decide_True.
  - rewrite decide_False by done. rewrite uinc_of_nat by lia.
    rewrite (IH (S n) fuel) by lia.
    by destruct (list_find _ (drop (S n) _)) as [[i c]|].
Qed.

(** The three point queries in terms of the first core with the id. *)
Lemma core_lookup_spec (cpu : pqos_cpuinfo) (lcore_id old : Z) :
  cpu_wf cpu →
  let found := list_find (λ c, lcore c = lcore_id) (cores cpu) in
  pqos_cpu_check_core (Ptr cpu) lcore_id
  = Some (if found is Some _ then PQOS_RETVAL_OK else PQOS_RETVAL_ERROR)
  ∧ pqos_cpu_get_socketid (Ptr cpu) lcore_id (Ptr old)
    = Some (if found is Some (_, c) then (PQOS_RETVAL_OK, Ptr (socket c))
            else (PQOS_RETVAL_ERROR, Ptr old))
  ∧ pqos_cpu_get_clusterid (Ptr cpu) lcore_id (Ptr old)
    = Some (if found is Some (_, c) then (PQOS_RETVAL_OK, Ptr (l3_id c))
            else (PQOS_RETVAL_ERROR, Ptr old)).
Proof.
  intros Hwf found.
  pose proof (check_loop_spec cpu lcore_id Hwf (length (cores cpu)) 0
                (S (Z.to_nat (num_cores cpu)))) as Hcheck.
  pose proof (socketid_loop_spec cpu lcore_id old Hwf (length (cores cpu)) 0
                (S (Z.to_nat (num_cores cpu)))) as Hsock.
  pose proof (clusterid_loop_spec cpu lcore_id old Hwf (length (cores cpu)) 0
                (S (Z.to_nat (num_cores cpu)))) as Hclus.
  change (Z.of_nat 0) with 0 in *. rewrite drop_0 in *. fold found in Hcheck, Hsock, Hclus.
  destruct Hwf as [Hlen Hnum].
  unfold pqos_cpu_check_core, pqos_cpu_get_socketid, pqos_cpu_get_clusterid.
  rewrite Hcheck, Hsock, Hclus by lia.
  by destruct found as [[i c]|].
Qed.

Lemma list_find_lcore_None (l : list pqos_coreinfo) (lcore_id : Z) :
  list_find (λ c, lcore c = lcore_id) l = None ↔ lcore_id ∉ lcore <$> l.
Proof.
  rewrite list_find_None, Forall_forall. split.
  - intros Hall (c & -> & Hc)%list_elem_of_fmap. by apply (Hall c).
  - intros Hnotin c Hc Heq. apply Hnotin, list_elem_of_fmap. by exists c.
Qed.

(** X1: [pqos_cpu_check_core] answers [PQOS_RETVAL_OK] exactly for the
    logical core ids that occur in the snapshot, [PQOS_RETVAL_ERROR] for all
    others (on a snapshot without cores: for every id), and
    [PQOS_RETVAL_PARAM] for a null snapshot. *)
Theorem X1_check_core_membership (cpu : pqos_cpuinfo) (lcore_id : Z) :
  cpu_wf cpu →
  pqos_cpu_check_core (Ptr cpu) lcore_id
  = Some (if decide (lcore_id ∈ lcore <$> cores cpu) then PQOS_RETVAL_OK
          else PQOS_RETVAL_ERROR)
  ∧ (cores cpu = [] →
     pqos_cpu_check_core (Ptr cpu) lcore_id = Some PQOS_RETVAL_ERROR)
  ∧ pqos_cpu_check_core NULL lcore_id = Some PQOS_RETVAL_PARAM.
Proof.
  intros Hwf.
  destruct (core_lookup_spec cpu lcore_id 0 Hwf) as (Hcheck & _ & _).
  assert (pqos_cpu_check_core (Ptr cpu) lcore_id
          = Some (if decide (lcore_id ∈ lcore <$> cores cpu)
                  then PQOS_RETVAL_OK else PQOS_RETVAL_ERROR)) as Hmem.
  { rewrite Hcheck.
    destruct (list_find _ _) as [[i c]|] eqn:Hfind.
    - apply list_find_Some in Hfind as (Hi & Hid & _).
      rewrite decide_True; [done|].
      apply list_elem_of_fmap. exists c. split; [done|].
      apply list_elem_of_lookup. by exists i.
    - apply list_find_lcore_None in Hfind. by rewrite decide_False. }
  split; [exact Hmem|]. split; [|reflexivity].
  intros Hnil. rewrite Hmem, Hnil. rewrite decide_False; [done|].
  apply not_elem_of_nil.
Qed.

Lemma X1_witness :
  pqos_cpu_check_core (Ptr scenario4) 2 = Some PQOS_RETVAL_OK
  ∧ pqos_cpu_check_core (Ptr scenario4) 9 = Some PQOS_RETVAL_ERROR
  ∧ pqos_cpu_check_core (Ptr no_cores) 0 = Some PQOS_RETVAL_ERROR.
Proof.
  assert (cpu_wf scenario4) as Hwf by solve_wf.
  assert (cpu_wf no_cores) as Hwf0 by solve_wf.
  split; [|split].
  - destruct (X1_check_core_membership scenario4 2 Hwf) as [-> _].
    by vm_compute.
  - destruct (X1_check_core_membership scenario4 9 Hwf) as [-> _].
    by vm_compute.
  - destruct (X1_check_core_membership no_cores 0 Hwf0) as (_ & Hnone & _).
    by apply Hnone.
Defined.

(** X2: [pqos_cpu_get_socketid] and [pqos_cpu_get_clusterid] answer for a
    logical core id the socket, respectively the L3 cluster, of the first
    core of the snapshot with that id; for an id that no core has they
    answer [PQOS_RETVAL_ERROR] and do not write their output. *)
Theorem X2_socket_and_cluster_of_core
    (cpu : pqos_cpuinfo) (lcore_id old : Z) :
  cpu_wf cpu →
  (∀ (i : nat) (c : pqos_coreinfo),
     first_at (λ c, lcore c = lcore_id) (cores cpu) i c →
     pqos_cpu_get_socketid (Ptr cpu) lcore_id (Ptr old)
     = Some (PQOS_RETVAL_OK, Ptr (socket c))
     ∧ pqos_cpu_get_clusterid (Ptr cpu) lcore_id (Ptr old)
       = Some (PQOS_RETVAL_OK, Ptr (l3_id c)))
  ∧ (lcore_id ∉ lcore <$> cores cpu →
     pqos_cpu_get_socketid (Ptr cpu) lcore_id (Ptr old)
     = Some (PQOS_RETVAL_ERROR, Ptr old)
     ∧ pqos_cpu_get_clusterid (Ptr cpu) lcore_id (Ptr old)
       = Some (PQOS_RETVAL_ERROR, Ptr old)).
Proof.
  intros Hwf.
  destruct (core_lookup_spec cpu lcore_id old Hwf) as (_ & Hsock & Hclus).
  cbv zeta in Hsock, Hclus. split.
  - intros i c Hfirst.
    apply (first_at_list_find (λ c, lcore c = lcore_id)) in Hfirst.
    rewrite Hfirst in Hsock, Hclus. by split.
  - intros Hnotin. apply list_find_lcore_None in Hnotin.
    rewrite Hnotin in Hsock, Hclus. by split.
Qed.

Lemma X2_witness :
  pqos_cpu_get_socketid (Ptr scenario4) 2 (Ptr 77)
  = Some (PQOS_RETVAL_OK, Ptr 1)
  ∧ pqos_cpu_get_clusterid (Ptr scenario4) 9 (Ptr 77)
    = Some (PQOS_RETVAL_ERROR, Ptr 77).
Proof.
  assert (cpu_wf scenario4) as Hwf by solve_wf.
  split.
  - destruct (X2_socket_and_cluster_of_core scenario4 2 77 Hwf) as [Hfound _].
    apply (Hfound 2%nat (mk_core 2 1 1 1)).
    split; [reflexivity|]. split; [reflexivity|].
    intros [|[|[|j]]] y Hy Hj; [| |lia..]; injection Hy as <-; discriminate.
  - destruct (X2_socket_and_cluster_of_core scenario4 9 77 Hwf) as [_ Hnone].
    apply Hnone. intros Hin.
    repeat (apply elem_of_cons in Hin as [Heq | Hin]; [discriminate Heq|]).
    by apply elem_of_nil in Hin.
Defined.

(** With pairwise distinct ids, the first core with the id of a core of the
    snapshot is that core. *)
Lemma list_find_lcore_unique (cpu : pqos_cpuinfo) (i : nat)
    (c : pqos_coreinfo) :
  lcores_unique cpu → cores cpu !! i = Some c →
  list_find (λ c', lcore c' = lcore c) (cores cpu) = Some (i, c).
Proof.
  intros Huniq Hi.
  destruct (list_find _ _) as [[j c']|] eqn:Hfind.
  - apply list_find_Some in Hfind as (Hj & Hid & _).
    assert (j = i) as ->.
    { apply (NoDup_lookup (lcore <$> cores cpu) j i (lcore c) Huniq).
      - by rewrite list_lookup_fmap, Hj; simpl; rewrite Hid.
      - by rewrite list_lookup_fmap, Hi. }
    congruence.
  - apply list_find_lcore_None in Hfind. exfalso. apply Hfind.
    apply list_elem_of_fmap. exists c. split; [done|].
    apply list_elem_of_lookup. by exists i.
Qed.

(** X3: on a snapshot whose logical core ids are pairwise distinct, looking
    a core of the snapshot up by its id gives back the socket and the L3
    cluster of that very core, and [pqos_cpu_check_core] accepts the id. *)
Theorem X3_lookup_of_a_core
    (cpu : pqos_cpuinfo) (i : nat) (c : pqos_coreinfo) (old : Z) :
  cpu_wf cpu → lcores_unique cpu → cores cpu !! i = Some c →
  pqos_cpu_check_core (Ptr cpu) (lcore c) = Some PQOS_RETVAL_OK
  ∧ pqos_cpu_get_socketid (Ptr cpu) (lcore c) (Ptr old)
    = Some (PQOS_RETVAL_OK, Ptr (socket c))
  ∧ pqos_cpu_get_clusterid (Ptr cpu) (lcore c) (Ptr old)
    = Some (PQOS_RETVAL_OK, Ptr (l3_id c)).
Proof.
  intros Hwf Huniq Hi.
  destruct (core_lookup_spec cpu (lcore c) old Hwf) as (Hcheck & Hsock & Hclus).
  cbv zeta in Hcheck, Hsock, Hclus.
  by rewrite (list_find_lcore_unique cpu i c Huniq Hi) in Hcheck, Hsock, Hclus.
Qed.

Lemma X3_witness :
  pqos_cpu_check_core (Ptr scenario4) 3 = Some PQOS_RETVAL_OK
  ∧ pqos_cpu_get_socketid (Ptr scenario4) 3 (Ptr 77)
    = Some (PQOS_RETVAL_OK, Ptr 1)
  ∧ pqos_cpu_get_clusterid (Ptr scenario4) 3 (Ptr 77)
    = Some (PQOS_RETVAL_OK, Ptr 1).
Proof.
  apply (X3_lookup_of_a_core scenario4 3 (mk_core 3 1 1 1) 77).
  - solve_wf.
  - unfold lcores_unique. apply (bool_decide_unpack _). by vm_compute.
  - reflexivity.
Defined.

(** X4: on every logical core id the three point queries answer the same
    code: a core that [pqos_cpu_check_core] accepts has a socket and a
    cluster, and a core it turns down has neither. *)
Theorem X4_point_queries_agree (cpu : pqos_cpuinfo) (lcore_id old : Z) :
  cpu_wf cpu →
  ∃ (r : retval) (s l3 : Z),
    pqos_cpu_check_core (Ptr cpu) lcore_id = Some r
    ∧ pqos_cpu_get_socketid (Ptr cpu) lcore_id (Ptr old) = Some (r, Ptr s)
    ∧ pqos_cpu_get_clusterid (Ptr cpu) lcore_id (Ptr old) = Some (r, Ptr l3)
    ∧ (r = PQOS_RETVAL_OK ∨ r = PQOS_RETVAL_ERROR ∧ s = old ∧ l3 = old).
Proof.
  intros Hwf.
  destruct (core_lookup_spec cpu lcore_id old Hwf) as (Hcheck & Hsock & Hclus).
  cbv zeta in Hcheck, Hsock, Hclus.
  destruct (list_find _ _) as [[j c]|].
  - exists PQOS_RETVAL_OK, (socket c), (l3_id c). eauto.
  - exists PQOS_RETVAL_ERROR, old, old. eauto 10.
Qed.

Lemma X4_witness :
  ∃ (r : retval) (s l3 : Z),
    pqos_cpu_check_core (Ptr scenario4) 9 = Some r
    ∧ pqos_cpu_get_socketid (Ptr scenario4) 9 (Ptr 77) = Some (r, Ptr s)
    ∧ pqos_cpu_get_clusterid (Ptr scenario4) 9 (Ptr 77) = Some (r, Ptr l3)
    ∧ (r = PQOS_RETVAL_OK ∨ r = PQOS_RETVAL_ERROR ∧ s = 77 ∧ l3 = 77).
Proof.
  apply (X4_point_queries_agree scenario4 9 77). solve_wf.
Defined.

End core_lookup.

(** ** The cores of a socket and the socket of a core *)

Section socket_round_trip.
Import Sockets CoreLookup.

Lemma elem_of_cores_of_socket (socket_id x : Z) (l : list pqos_coreinfo) :
  x ∈ cores_of_socket socket_id l
  ↔ ∃ c, c ∈ l ∧ socket c = socket_id ∧ lcore c = x.
Proof.
  unfold cores_of_socket. rewrite list_elem_of_fmap. split.
  - intros (c & -> & Hc). apply list_elem_of_filter in Hc as [Hs Hc]. eauto.
  - intros (c & Hc & Hs & <-). exists c. split; [done|].
    by apply list_elem_of_filter.
Qed.

(** What [pqos_cpu_get_cores] does on valid arguments, in terms of the
    cores of the socket. *)
Lemma pqos_cpu_get_cores_spec (cpu : pqos_cpuinfo)
    (socket_id max_count old : Z) (buf : list Z) :
  cpu_wf cpu → 0 < max_count <= UINT_MAX →
  max_count <= Z.of_nat (length buf) →
  let found := cores_of_socket socket_id (cores cpu) in
  let call :=
    pqos_cpu_get_cores (Ptr cpu) socket_id max_count (Ptr old) (Ptr buf) in
  (found = [] → call = Some (PQOS_RETVAL_ERROR, Ptr old, Ptr buf))
  ∧ (∀ x more, found = x :: more → max_count = 1 →
       call = Some (PQOS_RETVAL_OK, Ptr 1, Ptr (<[0%nat := x]> buf)))
  ∧ (found ≠ [] → 1 < max_count → Z.of_nat (length found) <= max_count →
     call = Some (PQOS_RETVAL_OK, Ptr (Z.of_nat (length found)),
                  Ptr (found ++ drop (length found) buf)))
  ∧ (1 < max_count → max_count < Z.of_nat (length found) →
     ∃ buf', call = Some (PQOS_RETVAL_ERROR, Ptr old, Ptr buf')).
Proof.
  intros Hwf Hmax Hroom found call. subst call. unfold pqos_cpu_get_cores.
  destruct (Z.eqb_spec max_count 0); [lia|].
  destruct (decide (max_count = 1)) as [->|Hmany].
  - pose proof (cores_loop_first cpu socket_id old buf Hwf ltac:(lia)
                  (length (cores cpu)) 0 (S (Z.to_nat (num_cores cpu))))
      as Hloop.
    change (Z.of_nat 0) with 0 in Hloop. rewrite drop_0 in Hloop.
    fold found in Hloop. rewrite Hloop by (destruct Hwf; lia).
    split; [by intros ->|]. split; [by intros x more -> _|].
    split; intros; lia.
  - pose proof (cores_loop_many cpu socket_id max_count old Hwf ltac:(lia)
                  (length (cores cpu)) 0 (S (Z.to_nat (num_cores cpu))) [] buf)
      as Hloop.
    destruct Hwf as [Hlen Hnum]. cbn [length app] in Hloop.
    change (Z.of_nat 0) with 0 in Hloop. rewrite drop_0 in Hloop.
    specialize (Hloop ltac:(lia) ltac:(lia) ltac:(lia) ltac:(lia)).
    cbv zeta in Hloop. fold found in Hloop.
    split; [|split; [intros; lia|split]].
    + intros Hnone. rewrite Hnone in Hloop. cbn [length drop] in Hloop.
      rewrite decide_True in Hloop by lia. by rewrite Hloop.
    + intros Hsome _ Hfit. rewrite decide_True in Hloop by done.
      rewrite Hloop. cbn [mbind option_bind].
      destruct (Z.eqb_spec (Z.of_nat (length found)) 0) as [Hz|_]; [|done].
      destruct found; [done|simpl in Hz; lia].
    + intros _ Hover. rewrite decide_False in Hloop by lia.
      destruct Hloop as (cnt & buf' & ->). cbn [mbind option_bind]. by eauto.
Qed.

Lemma lookup_of_member (cpu : pqos_cpuinfo) (c : pqos_coreinfo) (old : Z) :
  cpu_wf cpu → lcores_unique cpu → c ∈ cores cpu →
  pqos_cpu_get_socketid (Ptr cpu) (lcore c) (Ptr old)
  = Some (PQOS_RETVAL_OK, Ptr (socket c))
  ∧ pqos_cpu_get_clusterid (Ptr cpu) (lcore c) (Ptr old)
    = Some (PQOS_RETVAL_OK, Ptr (l3_id c)).
Proof.
  intros Hwf Huniq (i & Hi)%list_elem_of_lookup.
  destruct (core_lookup_spec cpu (lcore c) old Hwf) as (_ & Hsock & Hclus).
  cbv zeta in Hsock, Hclus.
  by rewrite (list_find_lcore_unique cpu i c Huniq Hi) in Hsock, Hclus.
Qed.

Lemma lookup_OK_inv (cpu : pqos_cpuinfo) (x old : Z) :
  cpu_wf cpu →
  (∀ s, pqos_cpu_get_socketid (Ptr cpu) x (Ptr old)
        = Some (PQOS_RETVAL_OK, Ptr s) →
        ∃ c, c ∈ cores cpu ∧ lcore c = x ∧ socket c = s)
  ∧ (∀ l3, pqos_cpu_get_clusterid (Ptr cpu) x (Ptr old)
           = Some (PQOS_RETVAL_OK, Ptr l3) →
           ∃ c, c ∈ cores cpu ∧ lcore c = x ∧ l3_id c = l3).
Proof.
  intros Hwf.
  destruct (core_lookup_spec cpu x old Hwf) as (_ & Hsock & Hclus).
  cbv zeta in Hsock, Hclus.
  destruct (list_find _ _) as [[i c]|] eqn:Hfind.
  - apply list_find_Some in Hfind as (Hi & Hid & _).
    assert (c ∈ cores cpu) by (apply list_elem_of_lookup; by exists i).
    split; intros v Hcall; [rewrite Hsock in Hcall | rewrite Hclus in Hcall];
      exists c; split; [done|split; [done|congruence]|done|split; [done|congruence]].
  - split; intros v Hcall; [rewrite Hsock in Hcall | rewrite Hclus in Hcall];
      discriminate Hcall.
Qed.

(** X5: for a socket that no core of the snapshot is on, and so for every
    socket on a snapshot without cores, [pqos_cpu_get_cores] answers
    [PQOS_RETVAL_ERROR] for every [max_count > 0], also for
    [max_count = 1], and writes neither [*count] nor the buffer. *)
Theorem X5_unknown_socket_has_no_cores
    (cpu : pqos_cpuinfo) (socket_id max_count old : Z) (buf : list Z) :
  cpu_wf cpu → 0 < max_count <= UINT_MAX →
  max_count <= Z.of_nat (length buf) →
  socket_id ∉ socket <$> cores cpu →
  pqos_cpu_get_cores (Ptr cpu) socket_id max_count (Ptr old) (Ptr buf)
  = Some (PQOS_RETVAL_ERROR, Ptr old, Ptr buf).
Proof.
  intros Hwf Hmax Hroom Hnotin.
  destruct (pqos_cpu_get_cores_spec cpu socket_id max_count old buf Hwf Hmax Hroom)
    as (Hnone & _).
  apply Hnone.
  destruct (cores_of_socket socket_id (cores cpu)) as [|x more] eqn:Hfound;
    [done|].
  assert (x ∈ cores_of_socket socket_id (cores cpu)) as Hx
    by (rewrite Hfound; apply list_elem_of_here).
  apply elem_of_cores_of_socket in Hx as (c & Hc & Hs & _).
  exfalso. apply Hnotin, list_elem_of_fmap. by exists c.
Qed.

Lemma X5_witness :
  pqos_cpu_get_cores (Ptr scenario4) 7 1 (Ptr 77) (Ptr [9])
  = Some (PQOS_RETVAL_ERROR, Ptr 77, Ptr [9])
  ∧ pqos_cpu_get_cores (Ptr no_cores) 0 4 (Ptr 77) (Ptr [9; 9; 9; 9])
    = Some (PQOS_RETVAL_ERROR, Ptr 77, Ptr [9; 9; 9; 9]).
Proof.
  split.
  - apply (X5_unknown_socket_has_no_cores scenario4 7 1 77 [9]);
      [solve_wf | split; by vm_compute | by vm_compute |].
    intros Hin.
    repeat (apply elem_of_cons in Hin as [Heq | Hin]; [discriminate Heq|]).
    by apply elem_of_nil in Hin.
  - apply (X5_unknown_socket_has_no_cores no_cores 0 4 77 [9; 9; 9; 9]);
      [solve_wf | split; by vm_compute | by vm_compute |].
    intros Hin. by apply elem_of_nil in Hin.
Defined.

(** X6: on a snapshot with pairwise distinct logical core ids, when
    [pqos_cpu_get_cores] succeeds, [pqos_cpu_get_socketid] maps every core it
    lists back to the socket asked for; and for [max_count > 1] it lists
    every core that [pqos_cpu_get_socketid] puts on that socket. The count
    it reports is at least 1 and at most [max_count]. *)
Theorem X6_cores_of_socket_round_trip
    (cpu : pqos_cpuinfo) (socket_id max_count old old' n : Z)
    (buf out : list Z) :
  cpu_wf cpu → lcores_unique cpu → 0 < max_count <= UINT_MAX →
  max_count <= Z.of_nat (length buf) →
  pqos_cpu_get_cores (Ptr cpu) socket_id max_count (Ptr old) (Ptr buf)
  = Some (PQOS_RETVAL_OK, Ptr n, Ptr out) →
  1 <= n <= max_count
  ∧ (∀ x, x ∈ take (Z.to_nat n) out →
          pqos_cpu_get_socketid (Ptr cpu) x (Ptr old')
          = Some (PQOS_RETVAL_OK, Ptr socket_id))
  ∧ (1 < max_count →
     ∀ x, pqos_cpu_get_socketid (Ptr cpu) x (Ptr old')
          = Some (PQOS_RETVAL_OK, Ptr socket_id) →
          x ∈ take (Z.to_nat n) out).
Proof.
  intros Hwf Huniq Hmax Hroom Hcall.
  destruct (pqos_cpu_get_cores_spec cpu socket_id max_count old buf Hwf Hmax Hroom)
    as (Hnone & Hone & Hmany & Hover).
  set (found := cores_of_socket socket_id (cores cpu)) in *.
  assert (∀ x, x ∈ found →
            pqos_cpu_get_socketid (Ptr cpu) x (Ptr old')
            = Some (PQOS_RETVAL_OK, Ptr socket_id)) as Hback.
  { intros x (c & Hc & <- & <-)%elem_of_cores_of_socket.
    by apply lookup_of_member. }
  assert (∀ x, pqos_cpu_get_socketid (Ptr cpu) x (Ptr old')
               = Some (PQOS_RETVAL_OK, Ptr socket_id) → x ∈ found) as Hforth.
  { intros x Hx. apply elem_of_cores_of_socket.
    destruct (lookup_OK_inv cpu x old' Hwf) as [Hinv _].
    destruct (Hinv socket_id Hx) as (c & Hc & Hid & Hs). by exists c. }
  destruct found as [|x more] eqn:Hfound.
  { rewrite Hnone in Hcall by done. discriminate Hcall. }
  destruct (decide (max_count = 1)) as [->|Hne].
  - rewrite (Hone x more eq_refl eq_refl) in Hcall.
    injection Hcall as <- <-. split; [lia|]. split; [|lia].
    intros y Hy. apply Hback.
    destruct buf as [|b buf]; [simpl in Hroom; lia|].
    simpl in Hy. rewrite take_0 in Hy.
    apply list_elem_of_singleton in Hy as ->. apply list_elem_of_here.
  - destruct (decide (Z.of_nat (length (x :: more)) <= max_count)) as [Hfit|Hbig].
    + rewrite Hmany in Hcall by (done || lia).
      assert (n = Z.of_nat (length (x :: more))
              ∧ out = (x :: more) ++ drop (length (x :: more)) buf)
        as [-> ->] by (split; congruence).
      rewrite Nat2Z.id, take_app_length.
      split; [split; [cbn [length]; lia | exact Hfit]|].
      split; [exact Hback|]. intros _. exact Hforth.
    + destruct Hover as (buf' & Hcall'); [lia..|].
      rewrite Hcall' in Hcall. discriminate Hcall.
Qed.

Lemma X6_witness :
  1 <= 2 <= 8
  ∧ (∀ x, x ∈ take (Z.to_nat 2) [2; 3; 9; 9; 9; 9; 9; 9] →
          pqos_cpu_get_socketid (Ptr scenario4) x (Ptr 77)
          = Some (PQOS_RETVAL_OK, Ptr 1))
  ∧ (1 < 8 →
     ∀ x, pqos_cpu_get_socketid (Ptr scenario4) x (Ptr 77)
          = Some (PQOS_RETVAL_OK, Ptr 1) →
          x ∈ take (Z.to_nat 2) [2; 3; 9; 9; 9; 9; 9; 9]).
Proof.
  apply (X6_cores_of_socket_round_trip scenario4 1 8 77 77 2 (replicate 8 9)).
  - solve_wf.
  - unfold lcores_unique. apply (bool_decide_unpack _). by vm_compute.
  - split; by vm_compute.
  - by vm_compute.
  - by vm_compute.
Defined.

End socket_round_trip.

(** ** More on counting and listing topology objects *)

Section counting_more.
Import Counter Sockets.

Lemma num_of_topology_objs_spec (cpu : pqos_cpuinfo) (type : Z) :
  cpu_wf cpu → cores cpu ≠ [] → valid_topo_obj type →
  __get_num_of_topology_objs (Ptr cpu) type
  = Some (distinct_keys type (cores cpu)).
Proof.
  intros Hwf Hne Hty. unfold __get_num_of_topology_objs.
  replace (negb (type =? TOPO_OBJ_SOCKET) && negb (type =? TOPO_OBJ_L2_CLUSTER)
           && negb (type =? TOPO_OBJ_L3_CLUSTER)) with false
    by (destruct Hty as [-> | [-> | ->]]; reflexivity).
  assert (0 < length (cores cpu))%nat
    by (destruct (cores cpu); [done | simpl; lia]).
  destruct (Z.eqb_spec (num_cores cpu) 0); [destruct Hwf; lia|].
  pose proof (count_loop_spec cpu type Hwf Hty (length (cores cpu) - 1) 1
                (Z.to_nat (num_cores cpu))) as Hloop.
  rewrite (distinct_keys_take_1 type (cores cpu) Hne) in Hloop.
  apply Hloop; destruct Hwf; lia.
Qed.

Lemma size_list_to_set_NoDup (l : list Z) :
  size (list_to_set (C := gset Z) l) = length l ↔ NoDup l.
Proof.
  split; [|apply size_list_to_set].
  induction l as [|x l IH]; intros Hsize; [apply NoDup_nil_2|].
  assert (size (list_to_set (C := gset Z) l) ≤ length l)%nat as Hle.
  { clear. induction l as [|y l IH]; simpl; [done|].
    rewrite size_union_alt, size_singleton.
    assert (size (list_to_set (C := gset Z) l ∖ {[y]})
            ≤ size (list_to_set (C := gset Z) l))%nat
      by (apply subseteq_size, subseteq_difference_l; done).
    lia. }
  cbn [list_to_set foldr length] in Hsize.
  destruct (decide (x ∈ l)) as [Hin|Hnotin].
  - exfalso.
    assert ({[x]} ∪ list_to_set (C := gset Z) l = list_to_set l) as Heq.
    { apply leibniz_equiv, subseteq_union_1, singleton_subseteq_l.
      by apply elem_of_list_to_set. }
    change (size ({[x]} ∪ list_to_set (C := gset Z) l) = S (length l)) in Hsize.
    rewrite Heq in Hsize. lia.
  - apply NoDup_cons_2; [done|]. apply IH.
    change (size ({[x]} ∪ list_to_set (C := gset Z) l) = S (length l)) in Hsize.
    rewrite size_union, size_singleton in Hsize; [lia|].
    apply disjoint_singleton_l. by rewrite elem_of_list_to_set.
Qed.

(** X7: on a snapshot with at least one core the count of
    [__get_num_of_topology_objs] is at least 1 and at most the number of
    cores, and it is the number of cores exactly when no two cores have the
    same value of the grouping key. *)
Theorem X7_count_bounds (cpu : pqos_cpuinfo) (type : Z) :
  cpu_wf cpu → 0 < num_cores cpu → valid_topo_obj type →
  ∃ n,
    __get_num_of_topology_objs (Ptr cpu) type = Some n
    ∧ 1 <= n <= num_cores cpu
    ∧ (n = num_cores cpu ↔ NoDup (topo_key type <$> cores cpu)).
Proof.
  intros Hwf Hpos Hty.
  assert (cores cpu ≠ []) as Hne.
  { destruct Hwf as [Hlen _]. intros Hnil. rewrite Hnil in Hlen. simpl in Hlen. lia. }
  exists (distinct_keys type (cores cpu)).
  split; [by apply num_of_topology_objs_spec|].
  pose proof (distinct_keys_pos type (cores cpu) Hne).
  pose proof (distinct_keys_le type (cores cpu)).
  destruct Hwf as [Hlen _]. split; [lia|].
  rewrite <- size_list_to_set_NoDup, length_fmap. unfold distinct_keys. lia.
Qed.

Lemma X7_witness :
  ∃ n,
    __get_num_of_topology_objs (Ptr three_sockets) TOPO_OBJ_L2_CLUSTER = Some n
    ∧ 1 <= n <= num_cores three_sockets
    ∧ (n = num_cores three_sockets
       ↔ NoDup (topo_key TOPO_OBJ_L2_CLUSTER <$> cores three_sockets)).
Proof.
  apply (X7_count_bounds three_sockets TOPO_OBJ_L2_CLUSTER).
  - solve_wf.
  - reflexivity.
  - right; left; reflexivity.
Defined.

(** X8: the count of [__get_num_of_topology_objs] does not depend on the
    order of the cores in the snapshot: two snapshots whose arrays of cores
    are permutations of each other have the same count, for each of the
    three grouping keys. *)
Theorem X8_count_is_order_independent (cpu cpu' : pqos_cpuinfo) (type : Z) :
  cpu_wf cpu → cpu_wf cpu' → valid_topo_obj type →
  cores cpu ≡ₚ cores cpu' →
  __get_num_of_topology_objs (Ptr cpu) type
  = __get_num_of_topology_objs (Ptr cpu') type.
Proof.
  intros Hwf Hwf' Hty Hperm.
  destruct (cores cpu) as [|c l] eqn:Hcores.
  - apply Permutation_nil_l in Hperm.
    unfold __get_num_of_topology_objs.
    destruct Hwf as [Hlen _], Hwf' as [Hlen' _].
    rewrite Hcores in Hlen. rewrite <- Hperm in Hlen'.
    rewrite Hlen, Hlen'. reflexivity.
  - assert (cores cpu' ≠ []) as Hne'.
    { intros Hnil. rewrite Hnil in Hperm. by apply Permutation_nil_r in Hperm. }
    rewrite !num_of_topology_objs_spec by (done || by rewrite Hcores).
    rewrite Hcores. unfold distinct_keys. do 3 f_equal.
    apply leibniz_equiv. by rewrite Hperm.
Qed.

Lemma X8_witness :
  __get_num_of_topology_objs (Ptr scenario4) TOPO_OBJ_SOCKET
  = __get_num_of_topology_objs
      (Ptr (mk_cpu [mk_core 3 1 1 1; mk_core 2 1 1 1; mk_core 1 0 0 0;
                    mk_core 0 0 0 0])) TOPO_OBJ_SOCKET.
Proof.
  apply X8_count_is_order_independent.
  - solve_wf.
  - solve_wf.
  - left; reflexivity.
  - symmetry. apply (reverse_Permutation (cores scenario4)).
Defined.

Lemma first_seen_length (l : list Z) :
  length (first_seen l) = size (list_to_set (C := gset Z) l).
Proof.
  destruct (first_seen_distinct l) as [Hnodup Helem].
  rewrite <- (size_list_to_set (C := gset Z) (first_seen l) Hnodup).
  f_equal. apply leibniz_equiv. intros x.
  by rewrite !elem_of_list_to_set.
Qed.

(** X9: when [pqos_cpu_get_sockets] succeeds, the ids it lists are pairwise
    distinct, they are exactly the sockets of the cores from the second one
    on, their number is at most [max_count] and at most the count of
    [pqos_cpu_get_num_sockets], and the buffer behind them is as it was. *)
Theorem X9_listed_sockets
    (cpu : pqos_cpuinfo) (max_count old old' n : Z) (buf out : list Z) :
  cpu_wf cpu → 0 < max_count <= UINT_MAX →
  max_count <= Z.of_nat (length buf) →
  pqos_cpu_get_sockets (Ptr cpu) max_count (Ptr old) (Ptr buf)
  = Some (PQOS_RETVAL_OK, Ptr n, Ptr out) →
  0 <= n <= max_count
  ∧ NoDup (take (Z.to_nat n) out)
  ∧ (∀ s, s ∈ take (Z.to_nat n) out ↔ s ∈ socket <$> drop 1 (cores cpu))
  ∧ drop (Z.to_nat n) out = drop (Z.to_nat n) buf
  ∧ (cores cpu ≠ [] →
     ∃ total,
       pqos_cpu_get_num_sockets (Ptr cpu) (Ptr old') = Some (PQOS_RETVAL_OK, Ptr total)
       ∧ n <= total).
Proof.
  intros Hwf Hmax Hroom Hcall.
  pose proof (pqos_cpu_get_sockets_spec cpu max_count old buf Hwf Hmax Hroom)
    as Hspec.
  cbv zeta in Hspec.
  set (ids := first_seen (socket <$> drop 1 (cores cpu))) in *.
  destruct (decide (Z.of_nat (length ids) <= max_count)) as [Hfit|Hover].
  - rewrite Hspec in Hcall.
    assert (n = Z.of_nat (length ids) ∧ out = ids ++ drop (length ids) buf)
      as [-> ->] by (split; congruence).
    rewrite Nat2Z.id, take_app_length, drop_app_length.
    destruct (first_seen_distinct (socket <$> drop 1 (cores cpu)))
      as [Hnodup Helem].
    split; [lia|]. split; [exact Hnodup|]. split; [exact Helem|].
    split; [done|]. intros Hne.
    exists (distinct_keys TOPO_OBJ_SOCKET (cores cpu)).
    unfold pqos_cpu_get_num_sockets.
    rewrite (num_of_topology_objs_spec cpu TOPO_OBJ_SOCKET Hwf Hne)
      by (left; reflexivity).
    cbn [mbind option_bind].
    pose proof (distinct_keys_pos TOPO_OBJ_SOCKET (cores cpu) Hne).
    destruct (Z.eqb_spec (distinct_keys TOPO_OBJ_SOCKET (cores cpu)) 0); [lia|].
    split; [done|]. unfold ids. rewrite first_seen_length.
    unfold distinct_keys. apply inj_le, subseteq_size.
    intros s Hs. apply elem_of_list_to_set in Hs. apply elem_of_list_to_set.
    apply list_elem_of_fmap in Hs as (c & -> & Hc).
    apply list_elem_of_fmap. exists c. split; [done|].
    apply list_elem_of_lookup in Hc as (i & Hi).
    rewrite lookup_drop in Hi. apply list_elem_of_lookup. eauto.
  - destruct Hspec as (buf' & Hspec). rewrite Hspec in Hcall.
    discriminate Hcall.
Qed.

Lemma X9_witness :
  0 <= 2 <= 4
  ∧ NoDup (take (Z.to_nat 2) [0; 1; 9; 9])
  ∧ (∀ s, s ∈ take (Z.to_nat 2) [0; 1; 9; 9]
          ↔ s ∈ socket <$> drop 1 (cores scenario4))
  ∧ drop (Z.to_nat 2) [0; 1; 9; 9] = drop (Z.to_nat 2) [9; 9; 9; 9]
  ∧ (cores scenario4 ≠ [] →
     ∃ total,
       pqos_cpu_get_num_sockets (Ptr scenario4) (Ptr 77)
       = Some (PQOS_RETVAL_OK, Ptr total)
       ∧ 2 <= total).
Proof.
  apply (X9_listed_sockets scenario4 4 77 77 2 [9; 9; 9; 9] [0; 1; 9; 9]).
  - solve_wf.
  - split; by vm_compute.
  - by vm_compute.
  - by vm_compute.
Defined.

(** X10: when the socket of the first core is also the socket of a later
    core, [pqos_cpu_get_sockets] and [pqos_cpu_get_num_sockets] agree: with
    [total] the count of [pqos_cpu_get_num_sockets], a buffer for at least
    [total] ids receives exactly the sockets of all cores and the count
    [total], and a smaller one makes the call fail with
    [PQOS_RETVAL_ERROR]. *)
Theorem X10_sockets_complete_when_first_recurs
    (cpu : pqos_cpuinfo) (c0 : pqos_coreinfo) (later : list pqos_coreinfo)
    (max_count old old' : Z) (buf : list Z) :
  cpu_wf cpu → cores cpu = c0 :: later →
  socket c0 ∈ socket <$> later →
  0 < max_count <= UINT_MAX →
  max_count <= Z.of_nat (length buf) →
  ∃ total,
    pqos_cpu_get_num_sockets (Ptr cpu) (Ptr old')
    = Some (PQOS_RETVAL_OK, Ptr total)
    ∧ (total <= max_count →
       ∃ out,
         pqos_cpu_get_sockets (Ptr cpu) max_count (Ptr old) (Ptr buf)
         = Some (PQOS_RETVAL_OK, Ptr total, Ptr out)
         ∧ ∀ s, s ∈ take (Z.to_nat total) out ↔ s ∈ socket <$> cores cpu)
    ∧ (max_count < total →
       ∃ out,
         pqos_cpu_get_sockets (Ptr cpu) max_count (Ptr old) (Ptr buf)
         = Some (PQOS_RETVAL_ERROR, Ptr old, Ptr out)).
Proof.
  intros Hwf Hcores Hrecurs Hmax Hroom.
  assert (cores cpu ≠ []) as Hne by (by rewrite Hcores).
  exists (distinct_keys TOPO_OBJ_SOCKET (cores cpu)).
  pose proof (distinct_keys_pos TOPO_OBJ_SOCKET (cores cpu) Hne).
  split.
  { unfold pqos_cpu_get_num_sockets.
    rewrite (num_of_topology_objs_spec cpu TOPO_OBJ_SOCKET Hwf Hne)
      by (left; reflexivity).
    cbn [mbind option_bind].
    by destruct (Z.eqb_spec (distinct_keys TOPO_OBJ_SOCKET (cores cpu)) 0); [lia|]. }
  pose proof (pqos_cpu_get_sockets_spec cpu max_count old buf Hwf Hmax Hroom)
    as Hspec.
  cbv zeta in Hspec. rewrite Hcores in Hspec. cbn [drop] in Hspec.
  rewrite drop_0 in Hspec.
  assert (∀ s, s ∈ socket <$> later ↔ s ∈ socket <$> cores cpu) as Hsame.
  { intros s. rewrite Hcores, fmap_cons, elem_of_cons.
    split; [tauto|]. by intros [->|?]. }
  assert (Z.of_nat (length (first_seen (socket <$> later)))
          = distinct_keys TOPO_OBJ_SOCKET (cores cpu)) as Hlen.
  { rewrite first_seen_length. unfold distinct_keys. do 2 f_equal.
    apply leibniz_equiv. intros s. rewrite !elem_of_list_to_set. apply Hsame. }
  rewrite Hlen in Hspec. split.
  - intros Hfit. rewrite decide_True in Hspec by done.
    eexists. split; [exact Hspec|].
    intros s. rewrite <- Hlen, Nat2Z.id, take_app_length, <- Hsame.
    apply (first_seen_distinct (socket <$> later)).
  - intros Hover. rewrite decide_False in Hspec by lia. exact Hspec.
Qed.

Lemma X10_witness :
  ∃ total,
    pqos_cpu_get_num_sockets (Ptr scenario4) (Ptr 77)
    = Some (PQOS_RETVAL_OK, Ptr total)
    ∧ (total <= 1 →
       ∃ out,
         pqos_cpu_get_sockets (Ptr scenario4) 1 (Ptr 77) (Ptr [9])
         = Some (PQOS_RETVAL_OK, Ptr total, Ptr out)
         ∧ ∀ s, s ∈ take (Z.to_nat total) out ↔ s ∈ socket <$> cores scenario4)
    ∧ (1 < total →
       ∃ out,
         pqos_cpu_get_sockets (Ptr scenario4) 1 (Ptr 77) (Ptr [9])
         = Some (PQOS_RETVAL_ERROR, Ptr 77, Ptr out)).
Proof.
  apply (X10_sockets_complete_when_first_recurs scenario4 (mk_core 0 0 0 0)
           [mk_core 1 0 0 0; mk_core 2 1 1 1; mk_core 3 1 1 1] 1 77 77 [9]).
  - solve_wf.
  - reflexivity.
  - apply list_elem_of_here.
  - split; by vm_compute.
  - by vm_compute.
Defined.

End counting_more.

(** ** More on the cores of a topology object *)

Section lister_more.
Import Sockets Lister CoreLookup.

Lemma in_topology_obj_invalid (type id : Z) (c : pqos_coreinfo) :
  ¬ valid_topo_obj type → in_topology_obj type id c = false.
Proof.
  intros Hty. unfold valid_topo_obj in Hty. unfold in_topology_obj.
  destruct (Z.eqb_spec type TOPO_OBJ_L3_CLUSTER); [tauto|].
  destruct (Z.eqb_spec type TOPO_OBJ_L2_CLUSTER); [tauto|].
  destruct (Z.eqb_spec type TOPO_OBJ_SOCKET); [tauto|].
  reflexivity.
Qed.

(** With a grouping key that is none of the three kinds the loop of
    [__get_cores_per_topology_obj] stores nothing. *)
Lemma collect_loop_invalid (cpu : pqos_cpuinfo) (type id num : Z)
    (block : list Z) :
  cpu_wf cpu → ¬ valid_topo_obj type →
  ∀ (k n fuel : nat),
    (length (cores cpu) ≤ n + k)%nat → (k < fuel)%nat →
    collect_loop fuel cpu type id (Z.of_nat n) num block = Some (num, block).
Proof.
  intros [Hlen Hnum] Hty k.
  induction k as [|k IH]; intros n fuel Hn Hfuel;
    (destruct fuel as [|fuel]; [lia|]); rewrite collect_loop_S;
    (destruct (Z.ltb_spec (Z.of_nat n) (num_cores cpu)) as [Hlt|Hge]; [|done]);
    [lia|].
  destruct (lookup_lt_is_Some_2 (cores cpu) n) as [ci Hci]; [lia|].
  rewrite (Nat2Z.id n), Hci. cbn [mbind option_bind].
  rewrite (in_topology_obj_invalid type id ci Hty).
  rewrite uinc_of_nat by lia. apply (IH (S n) fuel); lia.
Qed.

(** What [__get_cores_per_topology_obj] does when the allocation
    succeeds. *)
Lemma get_cores_per_topology_obj_spec (malloc : allocator)
    (cpu : pqos_cpuinfo) (type id old : Z) (block : list Z) :
  cpu_wf cpu → valid_topo_obj type →
  allocator_sound malloc → malloc (num_cores cpu) = Ptr block →
  let found := cores_of_obj type id (cores cpu) in
  __get_cores_per_topology_obj malloc (Ptr cpu) type id (Ptr old)
  = if decide (found = []) then Some (NULL, Ptr old)
    else Some (Ptr (found ++ drop (length found) block),
               Ptr (Z.of_nat (length found))).
Proof.
  intros Hwf Hty Hsound Hblock found.
  unfold __get_cores_per_topology_obj. rewrite Hblock.
  pose proof (collect_loop_spec cpu type id Hwf Hty (length (cores cpu)) 0
                (S (Z.to_nat (num_cores cpu))) [] block) as Hloop.
  destruct Hwf as [Hlen Hnum]. apply Hsound in Hblock; [|lia].
  cbn [length app] in Hloop. change (Z.of_nat 0) with 0 in Hloop.
  rewrite drop_0 in Hloop.
  rewrite Hloop by lia. fold found. cbn [mbind option_bind].
  destruct (Z.eqb_spec (Z.of_nat (length found)) 0) as [Hzero|Hpos].
  - rewrite decide_True; [done|]. apply nil_length_inv. lia.
  - rewrite decide_False; [done|]. by intros ->.
Qed.

Lemma elem_of_cores_of_obj (type id x : Z) (l : list pqos_coreinfo) :
  x ∈ cores_of_obj type id l
  ↔ ∃ c, c ∈ l ∧ topo_key type c = id ∧ lcore c = x.
Proof.
  unfold cores_of_obj. rewrite list_elem_of_fmap. split.
  - intros (c & -> & Hc). apply list_elem_of_filter in Hc as [Hs Hc]. eauto.
  - intros (c & Hc & Hs & <-). exists c. split; [done|].
    by apply list_elem_of_filter.
Qed.

(** X11: with a grouping key that is none of socket, L2 cluster and L3
    cluster, [__get_cores_per_topology_obj] answers [NULL] for every id and
    every snapshot and leaves [*count] alone, whatever [malloc] answered. *)
Theorem X11_unsupported_key_has_no_cores
    (malloc : allocator) (cpu : pqos_cpuinfo) (type id old : Z) :
  cpu_wf cpu → ¬ valid_topo_obj type →
  __get_cores_per_topology_obj malloc (Ptr cpu) type id (Ptr old)
  = Some (NULL, Ptr old).
Proof.
  intros Hwf Hty. unfold __get_cores_per_topology_obj.
  destruct (malloc (num_cores cpu)) as [|block]; [done|].
  pose proof (collect_loop_invalid cpu type id 0 block Hwf Hty
                (length (cores cpu)) 0 (S (Z.to_nat (num_cores cpu)))) as Hloop.
  change (Z.of_nat 0) with 0 in Hloop.
  rewrite Hloop by (destruct Hwf; lia).
  reflexivity.
Qed.

Lemma X11_witness :
  __get_cores_per_topology_obj calloc_like (Ptr scenario4) 1 0 (Ptr 77)
  = Some (NULL, Ptr 77).
Proof.
  apply (X11_unsupported_key_has_no_cores calloc_like scenario4 1 0 77).
  - solve_wf.
  - intros [Hty | [Hty | Hty]]; discriminate Hty.
Defined.

(** X12: the two ways to list the cores of a socket agree: when the cores of
    the socket fit [max_count > 1] and the allocation succeeds,
    [pqos_cpu_get_cores] and [__get_cores_per_topology_obj] for the socket
    key report the same count and the same ids in the same order; when no
    core is on the socket the first answers [PQOS_RETVAL_ERROR] and the
    second [NULL]. *)
Theorem X12_two_listings_of_a_socket
    (malloc : allocator) (cpu : pqos_cpuinfo)
    (socket_id max_count old old' : Z) (buf block : list Z) :
  cpu_wf cpu → allocator_sound malloc →
  malloc (num_cores cpu) = Ptr block →
  1 < max_count <= UINT_MAX →
  max_count <= Z.of_nat (length buf) →
  let found := cores_of_socket socket_id (cores cpu) in
  Z.of_nat (length found) <= max_count →
  (found = [] →
   pqos_cpu_get_cores (Ptr cpu) socket_id max_count (Ptr old) (Ptr buf)
   = Some (PQOS_RETVAL_ERROR, Ptr old, Ptr buf)
   ∧ __get_cores_per_topology_obj malloc (Ptr cpu) TOPO_OBJ_SOCKET socket_id
       (Ptr old')
     = Some (NULL, Ptr old'))
  ∧ (found ≠ [] →
     pqos_cpu_get_cores (Ptr cpu) socket_id max_count (Ptr old) (Ptr buf)
     = Some (PQOS_RETVAL_OK, Ptr (Z.of_nat (length found)),
             Ptr (found ++ drop (length found) buf))
     ∧ __get_cores_per_topology_obj malloc (Ptr cpu) TOPO_OBJ_SOCKET socket_id
         (Ptr old')
       = Some (Ptr (found ++ drop (length found) block),
               Ptr (Z.of_nat (length found)))).
Proof.
  intros Hwf Hsound Hblock Hmax Hroom found Hfit.
  destruct (pqos_cpu_get_cores_spec cpu socket_id max_count old buf Hwf
              ltac:(lia) Hroom) as (Hnone & _ & Hmany & _).
  pose proof (get_cores_per_topology_obj_spec malloc cpu TOPO_OBJ_SOCKET
                socket_id old' block Hwf ltac:(by left) Hsound Hblock)
    as Hobj.
  cbv zeta in Hobj.
  change (cores_of_obj TOPO_OBJ_SOCKET socket_id (cores cpu)) with found in Hobj.
  fold found in Hnone, Hmany. split.
  - intros Hempty. split; [by apply Hnone|].
    by rewrite decide_True in Hobj.
  - intros Hsome. split; [apply Hmany; (done || lia)|].
    by rewrite decide_False in Hobj.
Qed.

Lemma X12_witness :
  pqos_cpu_get_cores (Ptr scenario4) 1 8 (Ptr 77) (Ptr (replicate 8 9))
  = Some (PQOS_RETVAL_OK, Ptr 2, Ptr [2; 3; 9; 9; 9; 9; 9; 9])
  ∧ __get_cores_per_topology_obj calloc_like (Ptr scenario4) TOPO_OBJ_SOCKET 1
      (Ptr 77)
    = Some (Ptr [2; 3; 0; 0], Ptr 2).
Proof.
  assert (allocator_sound calloc_like) as Hsound.
  { intros n block Hn [= <-]. rewrite length_replicate. lia. }
  destruct (X12_two_listings_of_a_socket calloc_like scenario4 1 8 77 77
              (replicate 8 9) [0; 0; 0; 0]) as [_ Hsome].
  - solve_wf.
  - exact Hsound.
  - reflexivity.
  - split; by vm_compute.
  - by vm_compute.
  - by vm_compute.
  - apply Hsome. discriminate.
Defined.

Lemma cores_of_obj_NoDup (cpu : pqos_cpuinfo) (type id : Z) :
  lcores_unique cpu → NoDup (cores_of_obj type id (cores cpu)).
Proof.
  intros Huniq. unfold cores_of_obj.
  apply (sublist_NoDup _ (lcore <$> cores cpu)); [exact Huniq|].
  apply fmap_sublist, sublist_filter.
Qed.

(** X13: on a snapshot with pairwise distinct logical core ids, when the
    allocation succeeds, [pqos_cpu_get_cores_l3id] always answers, in one
    of two ways. Either no id is put in the cluster by
    [pqos_cpu_get_clusterid], and then the answer is [NULL] with [*count]
    left alone; or some id is, and then the answer is a list and a count,
    the count at least 1 and at most the number of cores and the length of
    the list, and the ids at the front of the list, as many as the count
    says, are pairwise distinct and are exactly the ids that
    [pqos_cpu_get_clusterid] puts in the cluster. *)
Theorem X13_cluster_round_trip
    (malloc : allocator) (cpu : pqos_cpuinfo) (l3 old old' : Z)
    (block : list Z) :
  cpu_wf cpu → lcores_unique cpu → allocator_sound malloc →
  malloc (num_cores cpu) = Ptr block →
  (pqos_cpu_get_cores_l3id malloc (Ptr cpu) l3 (Ptr old) = Some (NULL, Ptr old)
   ∧ ∀ x, pqos_cpu_get_clusterid (Ptr cpu) x (Ptr old')
          ≠ Some (PQOS_RETVAL_OK, Ptr l3))
  ∨ (∃ (list : list Z) (n x0 : Z),
       pqos_cpu_get_cores_l3id malloc (Ptr cpu) l3 (Ptr old)
       = Some (Ptr list, Ptr n)
       ∧ 1 <= n <= num_cores cpu
       ∧ (Z.to_nat n ≤ length list)%nat
       ∧ NoDup (take (Z.to_nat n) list)
       ∧ pqos_cpu_get_clusterid (Ptr cpu) x0 (Ptr old')
         = Some (PQOS_RETVAL_OK, Ptr l3)
       ∧ ∀ x, x ∈ take (Z.to_nat n) list
              ↔ pqos_cpu_get_clusterid (Ptr cpu) x (Ptr old')
                = Some (PQOS_RETVAL_OK, Ptr l3)).
Proof.
  intros Hwf Huniq Hsound Hblock.
  pose proof (get_cores_per_topology_obj_spec malloc cpu TOPO_OBJ_L3_CLUSTER
                l3 old block Hwf ltac:(by right; right) Hsound Hblock)
    as Hobj.
  cbv zeta in Hobj. unfold pqos_cpu_get_cores_l3id.
  pose proof (cores_of_obj_NoDup cpu TOPO_OBJ_L3_CLUSTER l3 Huniq) as Hnodup.
  set (found := cores_of_obj TOPO_OBJ_L3_CLUSTER l3 (cores cpu)) in *.
  assert (∀ x, x ∈ found
               ↔ pqos_cpu_get_clusterid (Ptr cpu) x (Ptr old')
                 = Some (PQOS_RETVAL_OK, Ptr l3)) as Hiff.
  { intros x. unfold found. rewrite elem_of_cores_of_obj. split.
    - intros (c & Hc & <- & <-).
      by apply (lookup_of_member cpu c old' Hwf Huniq Hc).
    - intros Hcall. destruct (lookup_OK_inv cpu x old' Hwf) as [_ Hinv].
      destruct (Hinv l3 Hcall) as (c & Hc & Hid & Hl3). by exists c. }
  assert (length found ≤ length (cores cpu))%nat as Hbound
    by (unfold found, cores_of_obj; rewrite length_fmap; apply length_filter).
  rewrite Hobj.
  destruct (decide (found = [])) as [Hempty|Hsome].
  - left. split; [done|].
    intros x Hx. apply Hiff in Hx. rewrite Hempty in Hx.
    by apply elem_of_nil in Hx.
  - right. destruct found as [|x0 more] eqn:Hfound; [done|].
    exists ((x0 :: more) ++ drop (length (x0 :: more)) block),
      (Z.of_nat (length (x0 :: more))), x0.
    rewrite Nat2Z.id, take_app_length, length_app.
    split; [done|].
    split; [destruct Hwf as [Hlen _]; cbn [length] in *; lia|].
    split; [lia|]. split; [exact Hnodup|].
    split; [apply Hiff, list_elem_of_here | exact Hiff].
Qed.

Lemma X13_witness :
  (pqos_cpu_get_cores_l3id calloc_like (Ptr scenario4) 1 (Ptr 77)
   = Some (NULL, Ptr 77)
   ∧ ∀ x, pqos_cpu_get_clusterid (Ptr scenario4) x (Ptr 77)
          ≠ Some (PQOS_RETVAL_OK, Ptr 1))
  ∨ (∃ (list : list Z) (n x0 : Z),
       pqos_cpu_get_cores_l3id calloc_like (Ptr scenario4) 1 (Ptr 77)
       = Some (Ptr list, Ptr n)
       ∧ 1 <= n <= num_cores scenario4
       ∧ (Z.to_nat n ≤ length list)%nat
       ∧ NoDup (take (Z.to_nat n) list)
       ∧ pqos_cpu_get_clusterid (Ptr scenario4) x0 (Ptr 77)
         = Some (PQOS_RETVAL_OK, Ptr 1)
       ∧ ∀ x, x ∈ take (Z.to_nat n) list
              ↔ pqos_cpu_get_clusterid (Ptr scenario4) x (Ptr 77)
                = Some (PQOS_RETVAL_OK, Ptr 1)).
Proof.
  assert (allocator_sound calloc_like) as Hsound.
  { intros n block Hn [= <-]. rewrite length_replicate. lia. }
  apply (X13_cluster_round_trip calloc_like scenario4 1 77 77 [0; 0; 0; 0]).
  - solve_wf.
  - unfold lcores_unique. apply (bool_decide_unpack _). by vm_compute.
  - exact Hsound.
  - reflexivity.
Defined.

End lister_more.

(** ** Classes of service and code/data prioritization *)

Section cos_query.
Import Caps CosQuery.

Lemma cap_type_l3ca (c : pqos_capability) :
  cap_type c = PQOS_CAP_TYPE_L3CA → ∃ ca, c = Cap_l3ca ca.
Proof. destruct c as [m|ca|ca]; intros Hty; try discriminate Hty. by exists ca. Qed.

(** The three allocation queries in terms of the first allocation record of
    their kind. *)
Lemma cos_query_spec (cap : pqos_cap) (old : Z) (sup en : ptr Z) :
  cap_wf cap →
  let l3 := list_find (λ c, cap_type c = PQOS_CAP_TYPE_L3CA) (capabilities cap) in
  let l2 := list_find (λ c, cap_type c = PQOS_CAP_TYPE_L2CA) (capabilities cap) in
  pqos_l3ca_get_cos_num (Ptr cap) (Ptr old)
  = match l3 with
    | None => Some (PQOS_RETVAL_RESOURCE, Ptr old)
    | Some (_, c) => ca ← u_l3ca c; Some (PQOS_RETVAL_OK, Ptr (num_classes ca))
    end
  ∧ pqos_l2ca_get_cos_num (Ptr cap) (Ptr old)
    = match l2 with
      | None => Some (PQOS_RETVAL_RESOURCE, Ptr old)
      | Some (_, c) => ca ← u_l2ca c; Some (PQOS_RETVAL_OK, Ptr (num_classes ca))
      end
  ∧ ((sup ≠ NULL ∨ en ≠ NULL) →
     pqos_l3ca_cdp_enabled (Ptr cap) sup en
     = match l3 with
       | None => Some (PQOS_RETVAL_RESOURCE, sup, en)
       | Some (_, c) =>
           ca ← u_l3ca c;
           Some (PQOS_RETVAL_OK, store_if_asked sup (cdp ca),
                 store_if_asked en (cdp_on ca))
       end).
Proof.
  intros Hwf l3 l2.
  pose proof (pqos_cap_get_type_spec cap PQOS_CAP_TYPE_L3CA NULL Hwf) as H3.
  pose proof (pqos_cap_get_type_spec cap PQOS_CAP_TYPE_L2CA NULL Hwf) as H2.
  rewrite decide_False in H3, H2 by (by vm_compute).
  fold l3 in H3. fold l2 in H2.
  split; [|split].
  - unfold pqos_l3ca_get_cos_num. rewrite H3.
    destruct l3 as [[i c]|] eqn:Hfind; cbn [mbind option_bind].
    + rewrite decide_False by (intros Hne; by apply Hne).
      apply list_find_Some in Hfind as (Hi & _ & _).
      by rewrite Nat2Z.id, Hi.
    + by rewrite decide_True by discriminate.
  - unfold pqos_l2ca_get_cos_num. rewrite H2.
    destruct l2 as [[i c]|] eqn:Hfind; cbn [mbind option_bind].
    + rewrite decide_False by (intros Hne; by apply Hne).
      apply list_find_Some in Hfind as (Hi & _ & _).
      by rewrite Nat2Z.id, Hi.
    + by rewrite decide_True by discriminate.
  - intros Hasked. unfold pqos_l3ca_cdp_enabled.
    assert (match en, sup with
            | NULL, NULL => False
            | _, _ => True
            end) as Hnot_both
      by (destruct en, sup; try done; destruct Hasked; done).
    destruct l3 as [[i c]|] eqn:Hfind.
    + apply list_find_Some in Hfind as (Hi & _ & _).
      destruct en, sup; try done; rewrite H3; cbn [mbind option_bind];
        (rewrite decide_False by (intros Hne; by apply Hne));
        by rewrite Nat2Z.id, Hi.
    + destruct en, sup; try done; rewrite H3; cbn [mbind option_bind];
        by rewrite decide_True by discriminate.
Qed.

(** X14: [pqos_l3ca_get_cos_num] and [pqos_l2ca_get_cos_num] store the
    number of classes of the first L3, respectively L2, allocation record of
    the snapshot and answer [PQOS_RETVAL_OK]; without such a record they
    answer [PQOS_RETVAL_RESOURCE] and leave [*cos_num] alone, also when a
    record of the other kind is there. *)
Theorem X14_number_of_classes (cap : pqos_cap) (old : Z) :
  cap_wf cap →
  (∀ (i : nat) (ca : pqos_cap_ca),
     first_at (λ c, cap_type c = PQOS_CAP_TYPE_L3CA) (capabilities cap) i
       (Cap_l3ca ca) →
     pqos_l3ca_get_cos_num (Ptr cap) (Ptr old)
     = Some (PQOS_RETVAL_OK, Ptr (num_classes ca)))
  ∧ ((∀ c, c ∈ capabilities cap → cap_type c ≠ PQOS_CAP_TYPE_L3CA) →
     pqos_l3ca_get_cos_num (Ptr cap) (Ptr old)
     = Some (PQOS_RETVAL_RESOURCE, Ptr old))
  ∧ (∀ (i : nat) (ca : pqos_cap_ca),
       first_at (λ c, cap_type c = PQOS_CAP_TYPE_L2CA) (capabilities cap) i
         (Cap_l2ca ca) →
       pqos_l2ca_get_cos_num (Ptr cap) (Ptr old)
       = Some (PQOS_RETVAL_OK, Ptr (num_classes ca)))
  ∧ ((∀ c, c ∈ capabilities cap → cap_type c ≠ PQOS_CAP_TYPE_L2CA) →
     pqos_l2ca_get_cos_num (Ptr cap) (Ptr old)
     = Some (PQOS_RETVAL_RESOURCE, Ptr old)).
Proof.
  intros Hwf.
  destruct (cos_query_spec cap old NULL NULL Hwf) as (H3 & H2 & _).
  cbv zeta in H3, H2.
  split; [|split; [|split]].
  - intros i ca Hfirst.
    apply (first_at_list_find (λ c, cap_type c = PQOS_CAP_TYPE_L3CA)) in Hfirst.
    by rewrite Hfirst in H3.
  - intros Hnone.
    assert (list_find (λ c, cap_type c = PQOS_CAP_TYPE_L3CA) (capabilities cap)
            = None) as Hfind
      by (apply list_find_None, Forall_forall; exact Hnone).
    by rewrite Hfind in H3.
  - intros i ca Hfirst.
    apply (first_at_list_find (λ c, cap_type c = PQOS_CAP_TYPE_L2CA)) in Hfirst.
    by rewrite Hfirst in H2.
  - intros Hnone.
    assert (list_find (λ c, cap_type c = PQOS_CAP_TYPE_L2CA) (capabilities cap)
            = None) as Hfind
      by (apply list_find_None, Forall_forall; exact Hnone).
    by rewrite Hfind in H2.
Qed.

Lemma X14_witness :
  pqos_l3ca_get_cos_num (Ptr l3_and_l2) (Ptr 77) = Some (PQOS_RETVAL_OK, Ptr 4)
  ∧ pqos_l2ca_get_cos_num (Ptr l3_and_l2) (Ptr 77)
    = Some (PQOS_RETVAL_OK, Ptr 8)
  ∧ pqos_l2ca_get_cos_num (Ptr l3_only) (Ptr 77)
    = Some (PQOS_RETVAL_RESOURCE, Ptr 77).
Proof.
  assert (cap_wf l3_and_l2) as Hwf by solve_wf.
  assert (cap_wf l3_only) as Hwf' by solve_wf.
  destruct (X14_number_of_classes l3_and_l2 77 Hwf) as (H3 & _ & H2 & _).
  destruct (X14_number_of_classes l3_only 77 Hwf') as (_ & _ & _ & Hnone).
  split; [|split].
  - apply (H3 0%nat {| num_classes := 4; cdp := 1; cdp_on := 0 |}).
    split; [reflexivity|]. split; [reflexivity|]. intros j y Hy Hj. lia.
  - apply (H2 1%nat {| num_classes := 8; cdp := 0; cdp_on := 0 |}).
    split; [reflexivity|]. split; [reflexivity|].
    intros [|[|j]] y Hy Hj; [|lia..]. injection Hy as <-. discriminate.
  - apply Hnone. intros c Hc.
    apply elem_of_cons in Hc as [-> | Hc]; [discriminate|].
    by apply elem_of_nil in Hc.
Defined.

(** X15: [pqos_l3ca_cdp_enabled] with at least one place for a result
    stores the flags [cdp] and [cdp_on] of the first L3 allocation record in
    the places that are not null, leaves a null place alone and answers
    [PQOS_RETVAL_OK]; without an L3 allocation record it answers
    [PQOS_RETVAL_RESOURCE] and writes nothing; with two null places it
    answers [PQOS_RETVAL_PARAM]. Its code is the code of
    [pqos_l3ca_get_cos_num] on the same snapshot. *)
Theorem X15_cdp_flags (cap : pqos_cap) (sup en : ptr Z) (old : Z) :
  cap_wf cap →
  pqos_l3ca_cdp_enabled (Ptr cap) NULL NULL
  = Some (PQOS_RETVAL_PARAM, NULL, NULL)
  ∧ ((sup ≠ NULL ∨ en ≠ NULL) →
     (∀ (i : nat) (ca : pqos_cap_ca),
        first_at (λ c, cap_type c = PQOS_CAP_TYPE_L3CA) (capabilities cap) i
          (Cap_l3ca ca) →
        pqos_l3ca_cdp_enabled (Ptr cap) sup en
        = Some (PQOS_RETVAL_OK,
                match sup with NULL => NULL | Ptr _ => Ptr (cdp ca) end,
                match en with NULL => NULL | Ptr _ => Ptr (cdp_on ca) end))
     ∧ ((∀ c, c ∈ capabilities cap → cap_type c ≠ PQOS_CAP_TYPE_L3CA) →
        pqos_l3ca_cdp_enabled (Ptr cap) sup en
        = Some (PQOS_RETVAL_RESOURCE, sup, en))
     ∧ ∃ r sup' en' cos,
         pqos_l3ca_cdp_enabled (Ptr cap) sup en = Some (r, sup', en')
         ∧ pqos_l3ca_get_cos_num (Ptr cap) (Ptr old) = Some (r, cos)).
Proof.
  intros Hwf. split; [reflexivity|]. intros Hasked.
  destruct (cos_query_spec cap old sup en Hwf) as (Hcos & _ & Hcdp).
  cbv zeta in Hcos, Hcdp. specialize (Hcdp Hasked).
  split; [|split].
  - intros i ca Hfirst.
    apply (first_at_list_find (λ c, cap_type c = PQOS_CAP_TYPE_L3CA)) in Hfirst.
    by rewrite Hfirst in Hcdp.
  - intros Hnone.
    assert (list_find (λ c, cap_type c = PQOS_CAP_TYPE_L3CA) (capabilities cap)
            = None) as Hfind
      by (apply list_find_None, Forall_forall; exact Hnone).
    by rewrite Hfind in Hcdp.
  - destruct (list_find _ _) as [[i c]|] eqn:Hfind.
    + apply list_find_Some in Hfind as (_ & Hty & _).
      apply cap_type_l3ca in Hty as [ca ->].
      cbn [u_l3ca mbind option_bind] in Hcos, Hcdp. eauto 10.
    + eauto 10.
Qed.

Lemma X15_witness :
  pqos_l3ca_cdp_enabled (Ptr l3_only) (Ptr 7) NULL
  = Some (PQOS_RETVAL_OK, Ptr 1, NULL)
  ∧ pqos_l3ca_cdp_enabled (Ptr l3_only) (Ptr 7) (Ptr 7)
    = Some (PQOS_RETVAL_OK, Ptr 1, Ptr 0).
Proof.
  assert (cap_wf l3_only) as Hwf by solve_wf.
  assert (first_at (λ c, cap_type c = PQOS_CAP_TYPE_L3CA)
            (capabilities l3_only) 0
            (Cap_l3ca {| num_classes := 4; cdp := 1; cdp_on := 0 |}))
    as Hfirst.
  { split; [reflexivity|]. split; [reflexivity|]. intros j y Hy Hj. lia. }
  split.
  - destruct (X15_cdp_flags l3_only (Ptr 7) NULL 77 Hwf) as [_ Hasked].
    destruct Hasked as (Hfound & _); [by left|].
    exact (Hfound _ _ Hfirst).
  - destruct (X15_cdp_flags l3_only (Ptr 7) (Ptr 7) 77 Hwf) as [_ Hasked].
    destruct Hasked as (Hfound & _); [by left|].
    exact (Hfound _ _ Hfirst).
Defined.

Lemma type_loop_frame (cap : pqos_cap) (type : Z) (ret : retval)
    (item : ptr cap_ref) (fuel : nat) :
  ∀ (i : Z) r item',
    type_loop fuel cap type i ret item = Some (r, item') →
    r = PQOS_RETVAL_OK ∨ (r = ret ∧ item' = item).
Proof.
  induction fuel as [|fuel IH]; intros i r item' Hloop; [discriminate|].
  rewrite type_loop_S in Hloop.
  repeat (case_match; simplify_option_eq); eauto.
Qed.

Lemma event_loop_frame (mon : pqos_cap_mon) (k event : Z) (ret : retval)
    (p : ptr event_ref) (fuel : nat) :
  ∀ (i : Z) r p',
    event_loop fuel mon k event i ret p = Some (r, p') →
    r = PQOS_RETVAL_OK ∨ (r = ret ∧ p' = p).
Proof.
  induction fuel as [|fuel IH]; intros i r p' Hloop; [discriminate|].
  rewrite event_loop_S in Hloop.
  repeat (case_match; simplify_option_eq); eauto.
Qed.

Lemma pqos_cap_get_type_frame (cap : ptr pqos_cap) (type : Z)
    (cap_item : ptr (ptr cap_ref)) r out :
  pqos_cap_get_type cap type cap_item = Some (r, out) →
  r ≠ PQOS_RETVAL_OK → out = cap_item.
Proof.
  unfold pqos_cap_get_type. intros Hcall Hr.
  destruct cap as [|c]; [by simplify_eq|].
  destruct cap_item as [|item]; [by simplify_eq|].
  destruct (PQOS_CAP_TYPE_NUMOF <=? type); [by simplify_eq|].
  destruct (type_loop _ _ _ _ _ _) as [[r' item']|] eqn:Hloop; [|discriminate].
  cbn [mbind option_bind] in Hcall. simplify_eq.
  apply type_loop_frame in Hloop as [-> | [_ ->]]; done.
Qed.

(** X16: whenever a capability query answers a code other than
    [PQOS_RETVAL_OK], whatever its arguments, it has written none of its
    results: [*cap_item], [*p_mon], [*cos_num], [*cdp_supported] and
    [*cdp_enabled] hold what they held before the call. *)
Theorem X16_failed_capability_query_writes_nothing
    (cap : ptr pqos_cap) (type event : Z) (cap_item : ptr (ptr cap_ref))
    (p_mon : ptr (ptr event_ref)) (cos sup en : ptr Z) :
  (∀ r out, pqos_cap_get_type cap type cap_item = Some (r, out) →
            r ≠ PQOS_RETVAL_OK → out = cap_item)
  ∧ (∀ r out, pqos_cap_get_event cap event p_mon = Some (r, out) →
              r ≠ PQOS_RETVAL_OK → out = p_mon)
  ∧ (∀ r out, pqos_l3ca_get_cos_num cap cos = Some (r, out) →
              r ≠ PQOS_RETVAL_OK → out = cos)
  ∧ (∀ r out, pqos_l2ca_get_cos_num cap cos = Some (r, out) →
              r ≠ PQOS_RETVAL_OK → out = cos)
  ∧ (∀ r sup' en', pqos_l3ca_cdp_enabled cap sup en = Some (r, sup', en') →
                   r ≠ PQOS_RETVAL_OK → sup' = sup ∧ en' = en).
Proof.
  split; [|split; [|split; [|split]]].
  - intros r out. apply pqos_cap_get_type_frame.
  - intros r out Hcall Hr. unfold pqos_cap_get_event in Hcall.
    destruct cap as [|c]; [by simplify_eq|].
    destruct p_mon as [|p]; [by simplify_eq|].
    destruct (pqos_cap_get_type _ _ _) as [[ret item]|]; [|discriminate].
    cbn [mbind option_bind] in Hcall.
    destruct (decide (ret ≠ PQOS_RETVAL_OK)); [by simplify_eq|].
    destruct item as [|[|[k]]]; try discriminate Hcall.
    destruct (capabilities c !! Z.to_nat k) as [it|]; [|discriminate].
    cbn [mbind option_bind] in Hcall.
    destruct (u_mon it) as [mon|]; [|discriminate].
    cbn [mbind option_bind] in Hcall.
    destruct (event_loop _ _ _ _ _ _ _) as [[r' p']|] eqn:Hloop; [|discriminate].
    cbn [mbind option_bind] in Hcall. simplify_eq.
    apply event_loop_frame in Hloop as [-> | [_ ->]]; done.
  - intros r out Hcall Hr. unfold pqos_l3ca_get_cos_num in Hcall.
    destruct cap as [|c]; [by simplify_eq|].
    destruct cos as [|old]; [by simplify_eq|].
    destruct (pqos_cap_get_type _ _ _) as [[ret item]|]; [|discriminate].
    cbn [mbind option_bind] in Hcall.
    destruct (decide (ret ≠ PQOS_RETVAL_OK)) as [|Hok]; [by simplify_eq|].
    exfalso. apply Hok.
    repeat (case_match; simplify_option_eq); done.
  - intros r out Hcall Hr. unfold pqos_l2ca_get_cos_num in Hcall.
    destruct cap as [|c]; [by simplify_eq|].
    destruct cos as [|old]; [by simplify_eq|].
    destruct (pqos_cap_get_type _ _ _) as [[ret item]|]; [|discriminate].
    cbn [mbind option_bind] in Hcall.
    destruct (decide (ret ≠ PQOS_RETVAL_OK)) as [|Hok]; [by simplify_eq|].
    exfalso. apply Hok.
    repeat (case_match; simplify_option_eq); done.
  - intros r sup' en' Hcall Hr. unfold pqos_l3ca_cdp_enabled in Hcall.
    destruct cap as [|c]; [by simplify_eq|].
    destruct (pqos_cap_get_type _ _ _) as [[ret item]|];
      destruct en, sup; simplify_eq; try done;
      cbn [mbind option_bind] in Hcall;
      (destruct (decide (ret ≠ PQOS_RETVAL_OK)) as [|Hok]; [by simplify_eq|]);
      exfalso; apply Hok;
      repeat (case_match; simplify_option_eq); done.
Qed.

Lemma X16_witness :
  pqos_cap_get_event (Ptr l3_only) 1 (Ptr NULL)
  = Some (PQOS_RETVAL_RESOURCE, Ptr NULL)
  ∧ pqos_l2ca_get_cos_num (Ptr l3_only) (Ptr 77)
    = Some (PQOS_RETVAL_RESOURCE, Ptr 77)
  ∧ Ptr (@NULL event_ref) = Ptr NULL ∧ Ptr 77 = Ptr 77.
Proof.
  assert (pqos_cap_get_event (Ptr l3_only) 1 (Ptr NULL)
          = Some (PQOS_RETVAL_RESOURCE, Ptr NULL)) as Hevent by (by vm_compute).
  assert (pqos_l2ca_get_cos_num (Ptr l3_only) (Ptr 77)
          = Some (PQOS_RETVAL_RESOURCE, Ptr 77)) as Hcos by (by vm_compute).
  split; [exact Hevent|]. split; [exact Hcos|].
  destruct (X16_failed_capability_query_writes_nothing (Ptr l3_only) 0 1
              (Ptr NULL) (Ptr NULL) (Ptr 77) NULL NULL)
    as (_ & Hframe_event & _ & Hframe_cos & _).
  split.
  - apply (Hframe_event PQOS_RETVAL_RESOURCE (Ptr NULL) Hevent). discriminate.
  - apply (Hframe_cos PQOS_RETVAL_RESOURCE (Ptr 77) Hcos). discriminate.
Defined.

End cos_query.

(** ** How the topology queries fit together *)

Section topology_composition.
Import Sockets Lister CoreLookup.

Lemma check_core_member (cpu : pqos_cpuinfo) (x : Z) :
  cpu_wf cpu → x ∈ lcore <$> cores cpu →
  pqos_cpu_check_core (Ptr cpu) x = Some PQOS_RETVAL_OK.
Proof.
  intros Hwf Hin.
  destruct (core_lookup_spec cpu x 0 Hwf) as (Hcheck & _ & _).
  cbv zeta in Hcheck.
  destruct (list_find _ _) as [[i c]|] eqn:Hfind; [done|].
  by apply list_find_lcore_None in Hfind.
Qed.

(** X17: every core of the snapshot is in the list of its own topology
    object: for each of the three grouping keys, when the allocation
    succeeds, [__get_cores_per_topology_obj] called with the value of the
    key on a core of the snapshot answers a list that holds the logical id
    of that core; and every id in a list it answers, for whatever id of an
    object, is accepted by [pqos_cpu_check_core]. *)
Theorem X17_every_core_is_listed
    (malloc : allocator) (cpu : pqos_cpuinfo) (type id old : Z)
    (block : list Z) :
  cpu_wf cpu → valid_topo_obj type →
  allocator_sound malloc → malloc (num_cores cpu) = Ptr block →
  (∀ c, c ∈ cores cpu →
     ∃ (list : list Z) (n : Z),
       __get_cores_per_topology_obj malloc (Ptr cpu) type (topo_key type c)
         (Ptr old)
       = Some (Ptr list, Ptr n)
       ∧ lcore c ∈ take (Z.to_nat n) list)
  ∧ (∀ (list : list Z) (n : Z),
       __get_cores_per_topology_obj malloc (Ptr cpu) type id (Ptr old)
       = Some (Ptr list, Ptr n) →
       ∀ x, x ∈ take (Z.to_nat n) list →
            pqos_cpu_check_core (Ptr cpu) x = Some PQOS_RETVAL_OK).
Proof.
  intros Hwf Hty Hsound Hblock. split.
  - intros c Hc.
    pose proof (get_cores_per_topology_obj_spec malloc cpu type
                  (topo_key type c) old block Hwf Hty Hsound Hblock) as Hobj.
    cbv zeta in Hobj.
    set (found := cores_of_obj type (topo_key type c) (cores cpu)) in *.
    assert (lcore c ∈ found) as Hin
      by (apply elem_of_cores_of_obj; by exists c).
    rewrite decide_False in Hobj by (intros Hnil; rewrite Hnil in Hin;
                                     by apply elem_of_nil in Hin).
    eexists _, _. split; [exact Hobj|].
    by rewrite Nat2Z.id, take_app_length.
  - intros list n Hcall x Hx.
    pose proof (get_cores_per_topology_obj_spec malloc cpu type id old block
                  Hwf Hty Hsound Hblock) as Hobj.
    cbv zeta in Hobj. rewrite Hobj in Hcall.
    destruct (decide (cores_of_obj type id (cores cpu) = [])); [discriminate|].
    assert (n = Z.of_nat (length (cores_of_obj type id (cores cpu)))
            ∧ list = cores_of_obj type id (cores cpu)
                     ++ drop (length (cores_of_obj type id (cores cpu))) block)
      as [-> ->] by (split; congruence).
    rewrite Nat2Z.id, take_app_length in Hx.
    apply elem_of_cores_of_obj in Hx as (c & Hc & _ & <-).
    apply check_core_member; [done|].
    apply list_elem_of_fmap. by exists c.
Qed.

Lemma X17_witness :
  ∃ (list : list Z) (n : Z),
    __get_cores_per_topology_obj calloc_like (Ptr scenario4)
      TOPO_OBJ_L2_CLUSTER (topo_key TOPO_OBJ_L2_CLUSTER (mk_core 2 1 1 1))
      (Ptr 77)
    = Some (Ptr list, Ptr n)
    ∧ lcore (mk_core 2 1 1 1) ∈ take (Z.to_nat n) list.
Proof.
  assert (allocator_sound calloc_like) as Hsound.
  { intros n block Hn [= <-]. rewrite length_replicate. lia. }
  destruct (X17_every_core_is_listed calloc_like scenario4 TOPO_OBJ_L2_CLUSTER
              0 77 [0; 0; 0; 0]) as [Hlisted _].
  - solve_wf.
  - right; left; reflexivity.
  - exact Hsound.
  - reflexivity.
  - apply Hlisted. do 2 apply list_elem_of_further. apply list_elem_of_here.
Defined.

(** X18: a socket that [pqos_cpu_get_sockets] lists has a core: for every
    id among the ids of a successful call, [pqos_cpu_get_cores] with
    [max_count = 1] answers [PQOS_RETVAL_OK] with one core, and
    [pqos_cpu_get_socketid] puts that core on the socket when the logical
    ids are pairwise distinct. *)
Theorem X18_listed_socket_has_a_core
    (cpu : pqos_cpuinfo) (max_count old old' n s : Z)
    (buf out buf' : list Z) :
  cpu_wf cpu → 0 < max_count <= UINT_MAX →
  max_count <= Z.of_nat (length buf) → (0 < length buf')%nat →
  pqos_cpu_get_sockets (Ptr cpu) max_count (Ptr old) (Ptr buf)
  = Some (PQOS_RETVAL_OK, Ptr n, Ptr out) →
  s ∈ take (Z.to_nat n) out →
  ∃ x,
    pqos_cpu_get_cores (Ptr cpu) s 1 (Ptr old') (Ptr buf')
    = Some (PQOS_RETVAL_OK, Ptr 1, Ptr (<[0%nat := x]> buf'))
    ∧ (lcores_unique cpu →
       pqos_cpu_get_socketid (Ptr cpu) x (Ptr old')
       = Some (PQOS_RETVAL_OK, Ptr s)).
Proof.
  intros Hwf Hmax Hroom Hbuf' Hcall Hs.
  pose proof (pqos_cpu_get_sockets_spec cpu max_count old buf Hwf Hmax Hroom)
    as Hspec.
  cbv zeta in Hspec.
  set (ids := first_seen (socket <$> drop 1 (cores cpu))) in *.
  destruct (decide (Z.of_nat (length ids) <= max_count)) as [Hfit|Hover];
    [|destruct Hspec as (b & Hspec); rewrite Hspec in Hcall;
      discriminate Hcall].
  rewrite Hspec in Hcall.
  assert (n = Z.of_nat (length ids) ∧ out = ids ++ drop (length ids) buf)
    as [-> ->] by (split; congruence).
  rewrite Nat2Z.id, take_app_length in Hs.
  apply (first_seen_distinct (socket <$> drop 1 (cores cpu))) in Hs.
  apply list_elem_of_fmap in Hs as (c & -> & Hc).
  assert (c ∈ cores cpu) as Hc'.
  { apply list_elem_of_lookup in Hc as (i & Hi). rewrite lookup_drop in Hi.
    apply list_elem_of_lookup. eauto. }
  destruct (cores_of_socket (socket c) (cores cpu)) as [|x more] eqn:Hfound.
  { assert (lcore c ∈ cores_of_socket (socket c) (cores cpu)) as Hin
      by (apply elem_of_cores_of_socket; by exists c).
    rewrite Hfound in Hin. by apply elem_of_nil in Hin. }
  exists x.
  destruct (pqos_cpu_get_cores_spec cpu (socket c) 1 old' buf' Hwf)
    as (_ & Hone & _); [by vm_compute | simpl; lia |].
  split; [by apply (Hone x more)|].
  intros Huniq.
  assert (x ∈ cores_of_socket (socket c) (cores cpu)) as Hx
    by (rewrite Hfound; apply list_elem_of_here).
  apply elem_of_cores_of_socket in Hx as (cx & Hcx & <- & <-).
  by apply lookup_of_member.
Qed.

Lemma X18_witness :
  ∃ x,
    pqos_cpu_get_cores (Ptr scenario4) 1 1 (Ptr 77) (Ptr [9])
    = Some (PQOS_RETVAL_OK, Ptr 1, Ptr (<[0%nat := x]> [9]))
    ∧ (lcores_unique scenario4 →
       pqos_cpu_get_socketid (Ptr scenario4) x (Ptr 77)
       = Some (PQOS_RETVAL_OK, Ptr 1)).
Proof.
  apply (X18_listed_socket_has_a_core scenario4 4 77 77 2 1
           [9; 9; 9; 9] [0; 1; 9; 9] [9]).
  - solve_wf.
  - split; by vm_compute.
  - by vm_compute.
  - simpl. lia.
  - by vm_compute.
  - apply list_elem_of_further, list_elem_of_here.
Defined.

End topology_composition.
